(** * withhacks: with-statement hacks on CPython frames and bytecode

    A shallow embedding of [withhacks/frameutils.py] and
    [withhacks/__init__.py], and the properties of the capture-and-rewrite
    engine proved over it.

    Python dictionaries keyed by variable names are [gmap string value];
    an [OrderedDict] is an association list kept in insertion order.
    Opcode names are strings, as in the [bytecode] library.  Python
    exceptions are an explicit [Raise] result, and the module-level tables
    of [frameutils] are fields of a [world] that is threaded through the
    effectful functions by a small state-and-exception monad. *)

From Stdlib Require Import ZArith Lia.
From stdpp Require Import base option strings list gmap.

Open Scope string_scope.
Open Scope list_scope.
Open Scope nat_scope.

(** ** Python values *)

(** Exception classes.  [UserError n base] is a class defined by user code
    that derives from [base]. *)
Inductive exc_class :=
  | Exception
  | LookupError
  | KeyError
  | IndexError
  | AttributeError
  | NameError
  | UnboundLocalError
  | TypeError
  | AssertionError
  | RuntimeError
  | NotImplementedError
  | ValueError
  | _ExitContext
  | UserError (n : nat) (base : exc_class).

#[global] Instance exc_class_eq_dec : EqDecision exc_class.
Proof. solve_decision. Defined.

(** The chain of base classes, most derived first (single inheritance). *)
Fixpoint mro (c : exc_class) : list exc_class :=
  c :: match c with
       | Exception => []
       | LookupError | AttributeError | NameError | TypeError
       | AssertionError | RuntimeError | ValueError | _ExitContext => [Exception]
       | KeyError | IndexError => [LookupError; Exception]
       | UnboundLocalError => [NameError; Exception]
       | NotImplementedError => [RuntimeError; Exception]
       | UserError _ base => mro base
       end.

Definition issubclass (c d : exc_class) : bool := bool_decide (d ∈ mro c).

(** A raised exception: its class and the text it was built with. *)
Inductive exn := Exn (c : exc_class) (msg : string).

#[global] Instance exn_eq_dec : EqDecision exn.
Proof. solve_decision. Defined.

Definition exn_class (e : exn) : exc_class := let 'Exn c _ := e in c.

Inductive compare := EXC_MATCH.

#[global] Instance compare_eq_dec : EqDecision compare.
Proof. solve_decision. Defined.

(** Values that occur as instruction arguments, in frames and on the
    evaluation stack.  [VObj id] is a reference to an object and is compared
    by identity; [VFrame fid] is a frame object; [VPlaceholder] is the
    fresh [object()] that stands for the value in a replayed as-clause;
    [VLoadName] is the function [load_name]. *)
Inductive value :=
  | UNSET
  | VNone
  | VBool (b : bool)
  | VInt (z : Z)
  | VStr (s : string)
  | VObj (id : nat)
  | VFrame (fid : nat)
  | VClass (c : exc_class)
  | VExc (e : exn)
  | VTraceback
  | VLabel (l : nat)
  | VCompare (c : compare)
  | VPlaceholder
  | VLoadName.

#[global] Instance value_eq_dec : EqDecision value.
Proof. solve_decision. Defined.

Definition name_of (v : value) : option string :=
  match v with VStr s => Some s | _ => None end.

Abbreviation dict := (gmap string value).

(** ** Results and the state monad *)

Inductive result (A : Type) :=
  | Ok (a : A)
  | Raise (e : exn).
Arguments Ok {A} a.
Arguments Raise {A} e.

Definition M (S A : Type) : Type := S → result A * S.

#[global] Instance M_ret {S} : MRet (M S) := λ A a s, (Ok a, s).
#[global] Instance M_bind {S} : MBind (M S) := λ A B k m s,
  match m s with
  | (Ok a, s') => k a s'
  | (Raise e, s') => (Raise e, s')
  end.

Definition ret {S A} (a : A) : M S A := mret a.
Definition raise {S A} (e : exn) : M S A := λ s, (Raise e, s).
Definition get {S} : M S S := λ s, (Ok s, s).
Definition put {S} (s : S) : M S unit := λ _, (Ok tt, s).
Definition modify {S} (f : S → S) : M S unit := λ s, (Ok tt, f s).
Definition lift_result {S A} (r : result A) : M S A := λ s, (r, s).

(** [catch m]: the outcome of [m], raised exception included, as a value. *)
Definition catch {S A} (m : M S A) : M S (result A) :=
  λ s, let '(r, s') := m s in (Ok r, s').

(** [try_finally m fin]: run [m], then [fin] whatever [m] did; the outcome
    of [m] is kept unless [fin] itself raises. *)
Definition try_finally {S A} (m : M S A) (fin : M S unit) : M S A :=
  λ s, let '(r, s1) := m s in
       match fin s1 with
       | (Ok _, s2) => (r, s2)
       | (Raise e, s2) => (Raise e, s2)
       end.

(** ** Instructions *)

(** An abstract instruction of the [bytecode] library: [Instr(name, arg)]. *)
Record instr := Instr { name : string; arg : value }.

#[global] Instance instr_eq_dec : EqDecision instr.
Proof. solve_decision. Defined.

(** The elements of a [Bytecode] sequence.  Only [EInstr] is an instance of
    [bytecode.instr.BaseInstr]; the other two have no [name] attribute. *)
Inductive elem :=
  | EInstr (i : instr)
  | ELabel (l : nat)
  | ESetLineno (n : nat).

#[global] Instance elem_eq_dec : EqDecision elem.
Proof. solve_decision. Defined.

Definition is_instr (b : elem) : bool :=
  match b with EInstr _ => true | _ => false end.

(** [b.name]: an [AttributeError] on a label or line marker. *)
Definition elem_name (b : elem) : result string :=
  match b with
  | EInstr i => Ok (name i)
  | _ => Raise (Exn AttributeError "name")
  end.

Definition instrs_of (bc : list elem) : list instr :=
  omap (λ b, match b with EInstr i => Some i | _ => None end) bc.

(** A [Bytecode] object: the sequence and the metadata this package sets. *)
Record Bytecode := mkBytecode {
  elems : list elem;
  bc_name : string;
  argnames : list string;
  argcount : Z;
  flags : Z;
}.

(** [bc[:] = l] *)
Definition set_elems (l : list elem) (bc : Bytecode) : Bytecode :=
  mkBytecode l (bc_name bc) (argnames bc) (argcount bc) (flags bc).

(** A concrete instruction: opcode name, numeric argument and its size in
    bytes within [co_code]. *)
Record cinstr := CInstr { c_name : string; c_arg : Z; c_size : Z }.

#[global] Instance cinstr_eq_dec : EqDecision cinstr.
Proof. solve_decision. Defined.

(** ** Frames and the interpreter-wide state *)

(** Functions installed as trace hooks. *)
Inductive trace_fn :=
  | F_invoke_trace_funcs
  | F_dummy_sys_trace
  | F_other_trace (n : nat).

#[global] Instance trace_fn_eq_dec : EqDecision trace_fn.
Proof. solve_decision. Defined.

(** Callables handed to [inject_trace_func] by this package:
    [_exit_context], and the closure
    [lambda frame: frame.f_locals.update(locals)]. *)
Inductive injected :=
  | F_exit_context
  | F_update_locals (locals : dict).

(** A frame.  [f_code] is held as the concrete instruction list that
    [ConcreteBytecode.from_code(frame.f_code)] decodes; the instructions
    tile [co_code], so [len(code.co_code)] is the sum of their sizes. *)
Record frame := Frame {
  f_code : list cinstr;
  f_lasti : Z;
  f_locals : dict;
  f_globals : dict;
  f_builtins : dict;
  f_trace : option trace_fn;
}.

Definition len_co_code (code : list cinstr) : Z :=
  foldr (λ c n, c_size c + n)%Z 0%Z code.

(** The state shared by all functions: the frame objects (by identity), the
    system trace function, the module globals of [frameutils], and the call
    stack as [sys._getframe(2)] and its [f_back] chain see it. *)
Record world := World {
  frames : gmap nat frame;
  sys_trace : option trace_fn;
  _orig_sys_trace : option trace_fn;
  _orig_trace_funcs : gmap nat (option trace_fn);
  _injected_trace_funcs : gmap nat (list injected);
  call_stack : list nat;
}.

(** What the package needs from the [bytecode] library and the
    interpreter. *)
Class Host := {
  (** [ConcreteBytecode.to_bytecode]. *)
  to_bytecode : list cinstr → Bytecode;
  (** [getattr(obj, name)] and [obj[key]]. *)
  py_getattr : value → string → result value;
  py_getitem : value → value → result value;
  (** Calling a callable object with positional and keyword arguments. *)
  py_call : value → list value → dict → M world value;
  (** [exec] of the compiled as-clause code (with its placeholder constant
      patched to the given value) in the globals and locals of a frame. *)
  py_exec : Bytecode → value → nat → M world unit;
}.

(** ** frameutils.py *)

Definition get_frame (fid : nat) : M world frame :=
  w ← get;
  match frames w !! fid with
  | Some f => ret f
  | None => raise (Exn RuntimeError "no such frame")
  end.

Definition set_frame (fid : nat) (f : frame) : M world unit :=
  modify (λ w, World (<[fid := f]> (frames w)) (sys_trace w) (_orig_sys_trace w)
                     (_orig_trace_funcs w) (_injected_trace_funcs w) (call_stack w)).

(** [load_name(frame, name)] *)
Definition load_name (frame : frame) (name : string) : result value :=
  match f_locals frame !! name with
  | Some v => Ok v
  | None =>
      match f_globals frame !! name with
      | Some v => Ok v
      | None =>
          match f_builtins frame !! name with
          | Some v => Ok v
          | None => Raise (Exn NameError name)
          end
      end
  end.

Definition set_sys_trace (t : option trace_fn) (w : world) : world :=
  World (frames w) t (_orig_sys_trace w) (_orig_trace_funcs w)
        (_injected_trace_funcs w) (call_stack w).
Definition set_orig_sys_trace (t : option trace_fn) (w : world) : world :=
  World (frames w) (sys_trace w) t (_orig_trace_funcs w)
        (_injected_trace_funcs w) (call_stack w).
Definition set_orig_trace_funcs (t : gmap nat (option trace_fn)) (w : world) : world :=
  World (frames w) (sys_trace w) (_orig_sys_trace w) t
        (_injected_trace_funcs w) (call_stack w).
Definition set_injected_trace_funcs (t : gmap nat (list injected)) (w : world) : world :=
  World (frames w) (sys_trace w) (_orig_sys_trace w) (_orig_trace_funcs w)
        t (call_stack w).

Definition set_f_trace (t : option trace_fn) (f : frame) : frame :=
  Frame (f_code f) (f_lasti f) (f_locals f) (f_globals f) (f_builtins f) t.
Definition set_f_locals (l : dict) (f : frame) : frame :=
  Frame (f_code f) (f_lasti f) l (f_globals f) (f_builtins f) (f_trace f).

(** [_enable_tracing()] *)
Definition _enable_tracing : M world unit :=
  w ← get;
  modify (set_orig_sys_trace (sys_trace w));;
  match sys_trace w with
  | None => modify (set_sys_trace (Some F_dummy_sys_trace))
  | Some _ => ret tt
  end.

(** [_disable_tracing()] *)
Definition _disable_tracing : M world unit :=
  w ← get;
  match _orig_sys_trace w with
  | None => modify (set_sys_trace None)
  | Some _ => ret tt
  end.

(** [inject_trace_func(frame, func)].  The lock serialises threads and has
    no effect on a single thread of control. *)
Definition inject_trace_func (fid : nat) (func : injected) : M world unit :=
  f ← get_frame fid;
  (if decide (f_trace f = Some F_invoke_trace_funcs) then ret tt
   else
     modify (λ w, set_orig_trace_funcs (<[fid := f_trace f]> (_orig_trace_funcs w)) w);;
     set_frame fid (set_f_trace (Some F_invoke_trace_funcs) f);;
     modify (λ w, set_injected_trace_funcs (<[fid := []]> (_injected_trace_funcs w)) w);;
     w ← get;
     if decide (size (_orig_trace_funcs w) = 1) then _enable_tracing else ret tt);;
  w ← get;
  match _injected_trace_funcs w !! fid with
  | Some funcs =>
      modify (set_injected_trace_funcs (<[fid := funcs ++ [func]]> (_injected_trace_funcs w)))
  | None => raise (Exn KeyError "frame")
  end.

(** [_exit_context(frame)] *)
Definition _exit_context (fid : nat) : M world unit :=
  raise (Exn _ExitContext "").

(** [d.update(other)]: every item of [other] is stored into [d]. *)
Definition dict_update (d other : dict) : dict :=
  map_fold (λ k v acc, <[k := v]> acc) d other.

(** Calling an injected function on a frame. *)
Definition call_injected (func : injected) (fid : nat) : M world unit :=
  match func with
  | F_exit_context => _exit_context fid
  | F_update_locals locals =>
      f ← get_frame fid;
      set_frame fid (set_f_locals (dict_update (f_locals f) locals) f)
  end.

Fixpoint for_each {S A} (l : list A) (body : A → M S unit) : M S unit :=
  match l with
  | [] => ret tt
  | x :: l' => body x;; for_each l' body
  end.

(** [_invoke_trace_funcs(frame, *args, **kwds)] *)
Definition _invoke_trace_funcs (fid : nat) : M world unit :=
  try_finally
    (w ← get;
     match _injected_trace_funcs w !! fid with
     | Some funcs => for_each funcs (λ func, call_injected func fid)
     | None => raise (Exn KeyError "frame")
     end)
    (w ← get;
     match _injected_trace_funcs w !! fid with
     | Some _ => modify (set_injected_trace_funcs (delete fid (_injected_trace_funcs w)))
     | None => raise (Exn KeyError "frame")
     end;;
     w ← get;
     (if decide (size (_orig_trace_funcs w) = 1) then _disable_tracing else ret tt);;
     w ← get;
     match _orig_trace_funcs w !! fid with
     | Some t =>
         modify (set_orig_trace_funcs (delete fid (_orig_trace_funcs w)));;
         f ← get_frame fid;
         set_frame fid (set_f_trace t f)
     | None => raise (Exn KeyError "frame")
     end).

(** The first loop of [extract_code]: byte offsets to indices into the
    concrete instruction list. *)
Fixpoint concrete_indices (start end_ : Z) (concrete_bc : list cinstr)
    (at_ : Z) (start_c end_c : nat) : nat * nat :=
  match concrete_bc with
  | [] => (start_c, end_c)
  | c :: rest =>
      let at_ := (at_ + c_size c)%Z in
      let start_c := if (at_ <? start)%Z then S start_c else start_c in
      let end_c := if (at_ <? end_)%Z then S end_c else end_c in
      concrete_indices start end_ rest at_ start_c end_c
  end.

(** The second loop: indices into the concrete list to indices into the
    abstract sequence, where labels and line markers are interleaved. *)
Fixpoint bytecode_indices (start_c end_c : nat) (bc : list elem)
    (i at_ : nat) (start_b end_b : option nat) : nat * option nat * option nat :=
  match bc with
  | [] => (at_, start_b, end_b)
  | b :: rest =>
      let start_b := if decide (at_ = start_c) then Some i else start_b in
      let end_b := if decide (at_ = end_c) then Some i else end_b in
      let at_ := if is_instr b then S at_ else at_ in
      bytecode_indices start_c end_c rest (S i) at_ start_b end_b
  end.

(** [l[a:b]] for indices that are [None] or non-negative. *)
Definition py_slice {A} (l : list A) (a b : option nat) : list A :=
  let a := default 0 a in
  let b := default (length l) b in
  take (b - a) (drop a l).

(** [extract_code(frame, start, end)] *)
Definition extract_code `{Host} (frame : frame) (start end_ : option Z)
    : result Bytecode :=
  let code := f_code frame in
  let start := default 0%Z start in
  let end_ := default (len_co_code code) end_ in
  let concrete_bc := code in
  let '(start_c, end_c) := concrete_indices start end_ concrete_bc 0 0 0 in
  let bc := to_bytecode concrete_bc in
  let '(at_, start_b, end_b) :=
    bytecode_indices start_c end_c (elems bc) 0 0 None None in
  if decide (at_ = length concrete_bc)
  then Ok (set_elems (py_slice (elems bc) start_b end_b) bc)
  else Raise (Exn AssertionError "").

(** ** withhacks/__init__.py *)

(** A method runs on its object and on the world. *)
Record st (O : Type) := St { self : O; wd : world }.
Arguments St {O} self wd.
Arguments self {O} s.
Arguments wd {O} s.

(** A module-level function called from a method. *)
Definition in_world {O A} (m : M world A) : M (st O) A :=
  λ s, let '(r, w) := m (wd s) in (r, St (self s) w).

Definition get_self {O} : M (st O) O := λ s, (Ok (self s), s).
Definition set_self {O} (f : O → O) : M (st O) unit :=
  λ s, (Ok tt, St (f (self s)) (wd s)).

(** [D] derives from [B]: an object of [D] holds the attributes of [B]. *)
Class Inherits (D B : Type) := {
  base : D → B;
  with_base : B → D → D;
}.

(** A method of a base class called on an object of a derived class. *)
Definition super {D B A} `{Inherits D B} (m : M (st B) A) : M (st D) A :=
  λ s, let '(r, s') := m (St (base (self s)) (wd s)) in
       (r, St (with_base (self s') (self s)) (wd s')).

Module WithHack.

Record obj := Obj {
  self_id : nat;
  dont_execute : bool;
  must_execute : bool;
  _WithHack__frame : option nat;
}.

Definition set_frame_cache (f : nat) (o : obj) : obj :=
  Obj (self_id o) (dont_execute o) (must_execute o) (Some f).

(** The loop of [_get_context_frame]: follow [f_back] while the frame binds
    the name "self" to this object.  [back] is the [f_back] chain of [fid];
    past its end [f] is [None], which has no [f_locals]. *)
Fixpoint find_context_frame (self_id : nat) (frames : gmap nat frame)
    (fid : nat) (back : list nat) : result nat :=
  match frames !! fid with
  | None => Raise (Exn RuntimeError "no such frame")
  | Some f =>
      if decide (f_locals f !! "self" = Some (VObj self_id)) then
        match back with
        | [] => Raise (Exn AttributeError "f_locals")
        | fid' :: back' => find_context_frame self_id frames fid' back'
        end
      else Ok fid
  end.

(** [self._get_context_frame()] *)
Definition _get_context_frame : M (st obj) nat :=
  o ← get_self;
  match _WithHack__frame o with
  | Some f => ret f
  | None =>
      w ← in_world get;
      match call_stack w with
      | [] => raise (Exn ValueError "call stack is not deep enough")
      | fid :: back =>
          f ← lift_result (find_context_frame (self_id o) (frames w) fid back);
          set_self (set_frame_cache f);;
          ret f
      end
  end.

(** [self._set_context_locals(locals)] *)
Definition _set_context_locals (locals : dict) : M (st obj) unit :=
  frame ← _get_context_frame;
  in_world (inject_trace_func frame (F_update_locals locals)).

(** [self.__enter__()]; the value returned is [self]. *)
Definition __enter__ : M (st obj) value :=
  o ← get_self;
  (if dont_execute o && negb (must_execute o) then
     frame ← _get_context_frame;
     in_world (inject_trace_func frame F_exit_context)
   else ret tt);;
  ret (VObj (self_id o)).

(** [self.__exit__(exc_type, exc_value, traceback)] *)
Definition __exit__ (exc_type exc_value traceback : value) : M (st obj) bool :=
  if decide (exc_type = VClass _ExitContext) then ret true else ret false.

End WithHack.

Module CaptureBytecode.

Record obj := Obj {
  wh : WithHack.obj;
  _CaptureBytecode__bc_start : option Z;
  bytecode : option Bytecode;
  _as_clause : option Bytecode;
}.

#[global] Instance inherits : Inherits obj WithHack.obj := {|
  base := wh;
  with_base b o := Obj b (_CaptureBytecode__bc_start o) (bytecode o) (_as_clause o);
|}.

Definition set_bc_start (z : option Z) (o : obj) : obj :=
  Obj (wh o) z (bytecode o) (_as_clause o).
Definition set_bytecode (bc : option Bytecode) (o : obj) : obj :=
  Obj (wh o) (_CaptureBytecode__bc_start o) bc (_as_clause o).
Definition set_as_clause (bc : option Bytecode) (o : obj) : obj :=
  Obj (wh o) (_CaptureBytecode__bc_start o) (bytecode o) bc.

(** [CaptureBytecode()]: the class sets [dont_execute = True]. *)
Definition __init__ (id : nat) : obj :=
  Obj (WithHack.Obj id true false None) None None None.

(** [self.__enter__()] *)
Definition __enter__ : M (st obj) value :=
  frame ← super WithHack._get_context_frame;
  f ← in_world (get_frame frame);
  set_self (set_bc_start (Some (f_lasti f)));;
  super WithHack.__enter__.

(** [while not isinstance(bc[0], BaseInstr) or bc[0].name != marker:
       bc[:] = bc[1:]]: an empty sequence has no [bc[0]]. *)
Fixpoint strip_until (marker : string) (bc : list elem) : result (list elem) :=
  match bc with
  | [] => Raise (Exn IndexError "list index out of range")
  | b :: rest =>
      if negb (is_instr b)
         || match b with EInstr i => bool_decide (name i ≠ marker) | _ => true end
      then strip_until marker rest
      else Ok bc
  end.

(** The same loop at the other end, on [bc[-1]] and [bc[:-1]]. *)
Definition strip_back_until (marker : string) (bc : list elem) : result (list elem) :=
  match strip_until marker (rev bc) with
  | Ok r => Ok (rev r)
  | Raise e => Raise e
  end.

(** The loop that collects the as-clause: the collected elements and the
    index [i] of the last one visited. *)
Fixpoint collect_as_clause (bc : list elem) (i : nat) : result (list elem * nat) :=
  match bc with
  | [] => Ok ([], i - 1)
  | b :: rest =>
      match elem_name b with
      | Raise e => Raise e
      | Ok n =>
          if String.prefix "STORE" n || bool_decide (n = "POP_TOP")
          then Ok ([b], i)
          else match collect_as_clause rest (S i) with
               | Ok (acc, j) => Ok (b :: acc, j)
               | Raise e => Raise e
               end
      end
  end.

(** [self.__exit__] with the three arguments of the protocol *)
Definition __exit__ `{Host} (exc_type exc_value traceback : value)
    : M (st obj) bool :=
  frame ← super WithHack._get_context_frame;
  f ← in_world (get_frame frame);
  o ← get_self;
  bc ← lift_result (extract_code f (_CaptureBytecode__bc_start o) (Some (f_lasti f)));
  (* Remove code setting up the with-statement block. *)
  l ← lift_result (strip_until "SETUP_WITH" (elems bc));
  let l := drop 1 l in
  (* extract code that belongs to the as clause *)
  '(as_clause, i) ←
     match l with
     | [] => raise (Exn UnboundLocalError "i")
     | _ => lift_result (collect_as_clause l 0)
     end;
  let l := drop (i + 1) l in
  set_self (set_as_clause (Some (set_elems as_clause bc)));;
  (* remove code tearing down the with-statement block *)
  l ← lift_result (strip_back_until "POP_BLOCK" l);
  let l := rev (drop 1 (rev l)) in
  (* save the trimmed bytecode *)
  set_self (set_bytecode (Some (set_elems l bc)));;
  super (WithHack.__exit__ exc_type exc_value traceback).

Definition arg_in_names (a : value) (names : list string) : bool :=
  match a with VStr n => bool_decide (n ∈ names) | _ => false end.

Definition arg_in_dict (a : value) (d : dict) : bool :=
  match a with VStr n => bool_decide (is_Some (d !! n)) | _ => false end.

(** The body of the loop of [_change_lookups], on one instruction. *)
Definition change_lookup (args : list string) (locals : dict) (i : instr) : instr :=
  if bool_decide (name i ∈ ["LOAD_FAST"; "LOAD_DEREF"; "LOAD_NAME"; "LOAD_GLOBAL"]) then
    if arg_in_names (arg i) args then Instr "LOAD_FAST" (arg i)
    else if bool_decide (name i ∈ ["LOAD_FAST"; "LOAD_DEREF"]) then
      if arg_in_dict (arg i) locals then Instr "LOAD_NAME" (arg i)
      else Instr "LOAD_FAST" (arg i)
    else i
  else if bool_decide (name i ∈ ["STORE_FAST"; "STORE_DEREF"; "STORE_NAME"; "STORE_GLOBAL"]) then
    if arg_in_names (arg i) args then Instr "STORE_FAST" (arg i)
    else if bool_decide (name i ∈ ["STORE_FAST"; "STORE_DEREF"]) then
      if arg_in_dict (arg i) locals then Instr "STORE_NAME" (arg i)
      else Instr "STORE_FAST" (arg i)
    else i
  else if bool_decide (name i ∈ ["DELETE_FAST"; "DELETE_NAME"; "DELETE_GLOBAL"]) then
    if arg_in_names (arg i) args then Instr "DELETE_FAST" (arg i)
    else if bool_decide (name i ∈ ["DELETE_FAST"]) then
      if arg_in_dict (arg i) locals then Instr "DELETE_NAME" (arg i)
      else Instr "DELETE_FAST" (arg i)
    else i
  else i.

(** [self._change_lookups(code, args=args, locals=locals)]: labels and line
    markers are skipped, instructions are renamed in place. *)
Definition _change_lookups (code : list elem) (args : list string) (locals : dict)
    : list elem :=
  (λ b, match b with
        | EInstr i => EInstr (change_lookup args locals i)
        | _ => b
        end) <$> code.

(** [any(instr.name == 'STORE_FAST' for instr in clause)] *)
Fixpoint any_store_fast (clause : list elem) : result bool :=
  match clause with
  | [] => Ok false
  | b :: rest =>
      match elem_name b with
      | Raise e => Raise e
      | Ok n => if bool_decide (n = "STORE_FAST") then Ok true else any_store_fast rest
      end
  end.

Definition CO_NEWLOCALS : Z := 2.

(** [self._run_as_clause(value)] *)
Definition _run_as_clause `{Host} (v : value) : M (st obj) unit :=
  o ← get_self;
  match _as_clause o with
  | None => raise (Exn AssertionError "")
  | Some clause =>
      match elems clause with
      | [] => raise (Exn AssertionError "")
      | first :: others =>
          let general : M (st obj) unit :=
            (* if somehow there's a STORE_FAST in there, it's not going to work *)
            found ← lift_result (any_store_fast (elems clause));
            if found : bool then raise (Exn NotImplementedError "Cannot handle this as clause")
            else
              frame ← super WithHack._get_context_frame;
              f ← in_world (get_frame frame);
              (* the copy shares its instructions with the as-clause, so
                 renaming them renames those of the as-clause too *)
              let code := [EInstr (Instr "LOAD_CONST" VPlaceholder)]
                            ++ elems clause
                            ++ [EInstr (Instr "LOAD_CONST" VNone);
                                EInstr (Instr "RETURN_VALUE" UNSET)] in
              let code := _change_lookups code [] (f_locals f) in
              set_self (set_as_clause
                (Some (set_elems (_change_lookups (elems clause) [] (f_locals f)) clause)));;
              let code := mkBytecode code "<as clause>" (argnames clause) 0
                                     (Z.land (flags clause) (Z.lnot CO_NEWLOCALS)) in
              in_world (py_exec code v frame) in
          if decide (length (elems clause) = 1) then
            n ← lift_result (elem_name first);
            (* store_fast has to be handled specially *)
            if decide (n = "STORE_FAST") then
              match first with
              | EInstr (Instr _ (VStr x)) => super (WithHack._set_context_locals {[x := v]})
              | _ => raise (Exn TypeError "name")
              end
            (* pop_top is a no-op *)
            else if decide (n = "POP_TOP") then ret tt
            else general
          else general
      end
  end.

End CaptureBytecode.

(** The [dest_type] of [CaptureLocals]: a mapping that is created empty and
    filled by item assignment. *)
Class DestType (D : Type) := {
  dest_type : D;
  dest_setitem : string → value → D → D;
}.

#[global] Instance dict_dest_type : DestType dict := {|
  dest_type := ∅;
  dest_setitem k v d := <[k := v]> d;
|}.

(** [collections.OrderedDict]: the items in the order their keys were first
    assigned. *)
Abbreviation OrderedDict := (list (string * value)).

Fixpoint od_setitem (k : string) (v : value) (d : OrderedDict) : OrderedDict :=
  match d with
  | [] => [(k, v)]
  | (k', v') :: d' =>
      if decide (k' = k) then (k, v) :: d' else (k', v') :: od_setitem k v d'
  end.

#[global] Instance OrderedDict_dest_type : DestType OrderedDict := {|
  dest_type := [];
  dest_setitem := od_setitem;
|}.

Module CaptureLocals.

Record obj (D : Type) := Obj {
  cb : CaptureBytecode.obj;
  locals : option D;
}.
Arguments Obj {D} cb locals.
Arguments cb {D} o.
Arguments locals {D} o.

#[global] Instance inherits {D} : Inherits (obj D) CaptureBytecode.obj := {|
  base := cb;
  with_base b o := Obj b (locals o);
|}.

Definition set_locals {D} (l : option D) (o : obj D) : obj D := Obj (cb o) l.

(** [CaptureLocals()]: the class sets [must_execute = True] on top of the
    [dont_execute = True] of [CaptureBytecode]. *)
Definition __init__ {D} (id : nat) : obj D :=
  Obj (CaptureBytecode.Obj (WithHack.Obj id true true None) None None None) None.

(** The body of the loop of [__exit__]:
    [if instr.name in ('STORE_FAST','STORE_NAME'):
         self.locals[instr.arg] = frame.f_locals[instr.arg]] *)
Definition capture_store {D} `{DestType D} (frame : nat) (b : elem)
    : M (st (obj D)) unit :=
  match b with
  | EInstr instr =>
      if bool_decide (name instr ∈ ["STORE_FAST"; "STORE_NAME"]) then
        f ← in_world (get_frame frame);
        match name_of (arg instr) ≫= (λ x, pair x <$> f_locals f !! x) with
        | Some (x, v) =>
            set_self (λ o, set_locals (dest_setitem x v <$> locals o) o)
        | None => raise (Exn KeyError "arg")
        end
      else ret tt
  | _ => raise (Exn AttributeError "name")
  end.

(** [self.__exit__] with the three arguments of the protocol *)
Definition __exit__ {D} `{DestType D} `{Host} (exc_type exc_value traceback : value)
    : M (st (obj D)) bool :=
  retcode ← super (CaptureBytecode.__exit__ exc_type exc_value traceback);
  frame ← super (super WithHack._get_context_frame);
  set_self (set_locals (Some dest_type));;
  o ← get_self;
  match CaptureBytecode.bytecode (cb o) with
  | None => raise (Exn TypeError "not iterable")
  | Some bc => for_each (elems bc) (capture_store frame)
  end;;
  ret retcode.

End CaptureLocals.

Module CaptureModifiedLocals.

Record obj := Obj {
  wh : WithHack.obj;
  _CaptureModifiedLocals__pre_locals : option dict;
  locals : option dict;
}.

#[global] Instance inherits : Inherits obj WithHack.obj := {|
  base := wh;
  with_base b o := Obj b (_CaptureModifiedLocals__pre_locals o) (locals o);
|}.

Definition set_pre_locals (d : option dict) (o : obj) : obj :=
  Obj (wh o) d (locals o).
Definition set_locals (d : option dict) (o : obj) : obj :=
  Obj (wh o) (_CaptureModifiedLocals__pre_locals o) d.

Definition __init__ (id : nat) : obj :=
  Obj (WithHack.Obj id false false None) None None.

(** [self.__enter__()] *)
Definition __enter__ : M (st obj) value :=
  frame ← super WithHack._get_context_frame;
  f ← in_world (get_frame frame);
  set_self (set_pre_locals (Some (f_locals f)));;
  super WithHack.__enter__.

(** One iteration of the loop of [__exit__] over [frame.f_locals.items()]. *)
Definition record_modified (self_id : nat) (pre_locals : dict)
    (name : string) (v : value) (locals : dict) : dict :=
  if decide (v = VObj self_id) then locals
  else match pre_locals !! name with
       | None => <[name := v]> locals
       | Some old => if decide (old ≠ v) then <[name := v]> locals else locals
       end.

(** [self.__exit__] with the three arguments of the protocol.  Without a
    preceding [__enter__] there is no [__pre_locals] attribute. *)
Definition __exit__ (exc_type exc_value traceback : value) : M (st obj) bool :=
  frame ← super WithHack._get_context_frame;
  f ← in_world (get_frame frame);
  set_self (set_locals (Some ∅));;
  o ← get_self;
  match _CaptureModifiedLocals__pre_locals o with
  | None => raise (Exn AttributeError "_CaptureModifiedLocals__pre_locals")
  | Some pre_locals =>
      set_self (set_locals
        (Some (map_fold (record_modified (WithHack.self_id (wh o)) pre_locals)
                        ∅ (f_locals f))));;
      set_self (set_pre_locals None);;
      super (WithHack.__exit__ exc_type exc_value traceback)
  end.

End CaptureModifiedLocals.

Module xkwargs.

Record obj := Obj {
  cl : CaptureLocals.obj dict;
  _xkwargs__func : value;
  _xkwargs__args : list value;
  _xkwargs__kwds : dict;
}.

#[global] Instance inherits : Inherits obj (CaptureLocals.obj dict) := {|
  base := cl;
  with_base b o := Obj b (_xkwargs__func o) (_xkwargs__args o) (_xkwargs__kwds o);
|}.

(** [xkwargs(func, *args, **kwds)] *)
Definition __init__ (id : nat) (func : value) (args : list value) (kwds : dict) : obj :=
  Obj (CaptureLocals.__init__ id) func args kwds.

(** [self.__exit__] with the three arguments of the protocol *)
Definition __exit__ `{Host} (exc_type exc_value traceback : value) : M (st obj) bool :=
  retcode ← super (CaptureLocals.__exit__ exc_type exc_value traceback);
  o ← get_self;
  match CaptureLocals.locals (cl o) with
  | None => raise (Exn AttributeError "locals")
  | Some locals =>
      let kwds := _xkwargs__kwds o in
      let kwds := dict_update kwds locals in
      retval ← in_world (py_call (_xkwargs__func o) (_xkwargs__args o) kwds);
      super (super (CaptureBytecode._run_as_clause retval));;
      ret retcode
  end.

End xkwargs.

Module namespace.

Definition I (name : string) (arg : value) : elem := EInstr (Instr name arg).

(** The default keyword arguments of [_replace_opcode]. *)
Definition _load (i : instr) : list elem := [I "LOAD_ATTR" (arg i)].
Definition _store (i : instr) : list elem := [I "STORE_ATTR" (arg i)].
Definition _delete (i : instr) : list elem := [I "DELETE_ATTR" (arg i)].
Definition _exc : exc_class := AttributeError.

(** [self._replace_opcode(instr, frame, _load=, _store=, _delete=, _exc=)].
    The three [Label()] objects created by a call are [lbl], [lbl + 1] and
    [lbl + 2]; [None] is returned for an instruction that stays as it is. *)
Definition _replace_opcode_kw (lbl : nat) (b : elem) (frame : nat)
    (_load _store _delete : instr → list elem) (_exc : exc_class)
    : result (option (list elem)) :=
  match b with
  | EInstr instr =>
      if bool_decide (name instr ∈ ["STORE_FAST"; "STORE_NAME"]) then
        Ok (Some ([I "LOAD_FAST" (VStr "_[namespace]")] ++ _store instr))
      else if bool_decide (name instr ∈ ["DELETE_FAST"; "DELETE_NAME"]) then
        Ok (Some ([I "LOAD_FAST" (VStr "_[namespace]")] ++ _delete instr))
      else if bool_decide (name instr ∈ ["LOAD_FAST"; "LOAD_NAME"; "LOAD_GLOBAL"; "LOAD_DEREF"]) then
        let excIn := lbl in
        let excOut := lbl + 1 in
        let end_ := lbl + 2 in
        Ok (Some ([I "SETUP_EXCEPT" (VLabel excIn);
                     I "LOAD_FAST" (VStr "_[namespace]")] ++ _load instr ++ [
                     I "STORE_FAST" (VStr "_[ns_value]");
                     I "POP_BLOCK" UNSET; I "JUMP_FORWARD" (VLabel end_);
                   ELabel excIn;
                     I "DUP_TOP" UNSET; I "LOAD_CONST" (VClass _exc);
                     I "COMPARE_OP" (VCompare EXC_MATCH);
                     I "POP_JUMP_IF_FALSE" (VLabel excOut); I "POP_TOP" UNSET;
                     I "POP_TOP" UNSET; I "POP_TOP" UNSET;
                     I "LOAD_CONST" VLoadName; I "LOAD_CONST" (VFrame frame);
                     I "LOAD_CONST" (arg instr); I "CALL_FUNCTION" (VInt 2);
                     I "STORE_FAST" (VStr "_[ns_value]");
                     I "POP_EXCEPT" UNSET;
                     I "JUMP_FORWARD" (VLabel end_);
                   ELabel excOut;
                     I "END_FINALLY" UNSET;
                   ELabel end_;
                     I "LOAD_FAST" (VStr "_[ns_value]")]))
      else Ok None
  | _ => Raise (Exn AttributeError "name")
  end.

(** [namespace._replace_opcode(instr, frame)] *)
Definition _replace_opcode (lbl : nat) (b : elem) (frame : nat)
    : result (option (list elem)) :=
  _replace_opcode_kw lbl b frame _load _store _delete _exc.

(** The first loop of [__exit__]: the replacements, with the index of the
    element each one replaces.  [if repl:] holds for a list that is not
    empty.  Every call of [_replace_opcode] is given label numbers of its
    own for the [Label()] objects it creates. *)
Fixpoint collect_replacements
    (replace : nat → elem → nat → result (option (list elem)))
    (lbl : nat) (funcode : list elem) (frame : nat) (i : nat)
    : result (list (nat * list elem)) :=
  match funcode with
  | [] => Ok []
  | b :: rest =>
      match replace lbl b frame with
      | Raise e => Raise e
      | Ok repl =>
          match collect_replacements replace (lbl + 3) rest frame (S i) with
          | Raise e => Raise e
          | Ok to_replace =>
              Ok (match repl with
                  | Some (r :: repl) => (i, r :: repl) :: to_replace
                  | _ => to_replace
                  end)
          end
      end
  end.

(** The second loop: [funcode[i+offset:i+offset+1] = repl]. *)
Fixpoint splice_replacements (funcode : list elem)
    (to_replace : list (nat * list elem)) (offset : nat) : list elem :=
  match to_replace with
  | [] => funcode
  | (i, repl) :: rest =>
      let funcode := take (i + offset) funcode ++ repl ++ drop (i + offset + 1) funcode in
      splice_replacements funcode rest (offset + (length repl - 1))
  end.

(** The rewriting done by [__exit__]: the copy of the captured code, ended
    by a return of [None], with every element replaced by what
    [self._replace_opcode] gives for it. *)
Definition rewrite_funcode
    (replace : nat → elem → nat → result (option (list elem)))
    (lbl : nat) (bytecode : list elem) (frame : nat) : result (list elem) :=
  let funcode := bytecode ++ [I "LOAD_CONST" VNone; I "RETURN_VALUE" UNSET] in
  match collect_replacements replace lbl funcode frame 0 with
  | Raise e => Raise e
  | Ok to_replace => Ok (splice_replacements funcode to_replace 0)
  end.

End namespace.

Module keyspace.

Import namespace.

(** [keyspace._replace_opcode(instr, frame)] *)
Definition _replace_opcode (lbl : nat) (b : elem) (frame : nat)
    : result (option (list elem)) :=
  namespace._replace_opcode_kw lbl b frame
    (λ i, [I "LOAD_CONST" (arg i); I "BINARY_SUBSCR" UNSET])
    (λ i, [I "LOAD_CONST" (arg i); I "STORE_SUBSCR" UNSET])
    (λ i, [I "LOAD_CONST" (arg i); I "DELETE_SUBSCR" UNSET])
    KeyError.

End keyspace.

(** ** The host interpreter *)

(** The evaluation loop of the interpreter, for the opcodes that
    [_replace_opcode] emits (CPython's [ceval] with [SETUP_EXCEPT], that
    is up to version 3.7).  The value stack grows at the head of the list.
    Stores and deletes on objects are recorded as effects; loads ask the
    host. *)
Module Ceval.

Inductive block_kind := B_SETUP_EXCEPT | B_EXCEPT_HANDLER.

Record block := Block { b_type : block_kind; b_handler : nat; b_level : nat }.

Inductive effect :=
  | SetAttr (o : value) (n : value) (v : value)
  | SetItem (o k v : value)
  | DelAttr (o : value) (n : value)
  | DelItem (o k : value).

Record machine := Machine {
  pc : nat;
  stack : list value;
  blockstack : list block;
  fast : dict;
  exc_info : value * value * value;
  effects : list effect;
}.

Inductive outcome :=
  | Running (m : machine)
  | Finished (m : machine)
  | Propagated (e : exn) (m : machine)
  | Stuck.

Definition pop_to_level (level : nat) (st : list value) : list value :=
  drop (length st - level) st.

Definition label_index (code : list elem) (l : nat) : option nat :=
  fst <$> list_find (λ b, b = ELabel l) code.

(** An exception raised by the instruction at [pc]: the blocks are popped
    until a [SETUP_EXCEPT] block takes it; its handler is entered with the
    previous and the new exception state on the stack, under an
    [EXCEPT_HANDLER] block. *)
Fixpoint unwind (code : list elem) (e : exn) (m : machine) (bs : list block) : outcome :=
  match bs with
  | [] => Propagated e (Machine (pc m) (stack m) [] (fast m) (exc_info m) (effects m))
  | b :: bs' =>
      match b_type b with
      | B_EXCEPT_HANDLER =>
          match pop_to_level (b_level b + 3) (stack m) with
          | ty :: va :: tb :: st =>
              unwind code e (Machine (pc m) st bs' (fast m) (ty, va, tb) (effects m)) bs'
          | _ => Stuck
          end
      | B_SETUP_EXCEPT =>
          let st := pop_to_level (b_level b) (stack m) in
          let '(ty, va, tb) := exc_info m in
          match label_index code (b_handler b) with
          | Some target =>
              Running (Machine target
                (VClass (exn_class e) :: VExc e :: VTraceback :: ty :: va :: tb :: st)
                (Block B_EXCEPT_HANDLER 0 (length st) :: bs')
                (fast m) (VClass (exn_class e), VExc e, VTraceback) (effects m))
          | None => Stuck
          end
      end
  end.

Definition raise_exc (code : list elem) (e : exn) (m : machine) : outcome :=
  unwind code e m (blockstack m).

Definition next (m : machine) (st : list value) : outcome :=
  Running (Machine (S (pc m)) st (blockstack m) (fast m) (exc_info m) (effects m)).

Definition jump (code : list elem) (m : machine) (st : list value) (target : value) : outcome :=
  match target with
  | VLabel l =>
      match label_index code l with
      | Some i => Running (Machine i st (blockstack m) (fast m) (exc_info m) (effects m))
      | None => Stuck
      end
  | _ => Stuck
  end.

Definition record (m : machine) (st : list value) (ef : effect) : outcome :=
  Running (Machine (S (pc m)) st (blockstack m) (fast m) (exc_info m) (effects m ++ [ef])).

(** A call: the only callable the rewritten code holds as a constant is
    [load_name]. *)
Definition call (frames : gmap nat frame) (callee : value) (args : list value)
    : option (result value) :=
  match callee, args with
  | VLoadName, [VFrame fid; VStr name] => (λ f, load_name f name) <$> frames !! fid
  | _, _ => None
  end.

Definition step `{Host} (frames : gmap nat frame) (code : list elem) (m : machine)
    : outcome :=
  match code !! pc m with
  | None => Finished m
  | Some (ELabel _) | Some (ESetLineno _) => next m (stack m)
  | Some (EInstr (Instr op a)) =>
      if (op =? "LOAD_CONST")%string then next m (a :: stack m)
      else if (op =? "LOAD_FAST")%string then
        match a with
        | VStr x =>
            match fast m !! x with
            | Some v => next m (v :: stack m)
            | None => raise_exc code (Exn UnboundLocalError x) m
            end
        | _ => Stuck
        end
      else if (op =? "STORE_FAST")%string then
        match a, stack m with
        | VStr x, v :: st =>
            Running (Machine (S (pc m)) st (blockstack m) (<[x := v]> (fast m))
                             (exc_info m) (effects m))
        | _, _ => Stuck
        end
      else if (op =? "LOAD_ATTR")%string then
        match a, stack m with
        | VStr x, o :: st =>
            match py_getattr o x with
            | Ok v => next m (v :: st)
            | Raise e => raise_exc code e m
            end
        | _, _ => Stuck
        end
      else if (op =? "BINARY_SUBSCR")%string then
        match stack m with
        | k :: o :: st =>
            match py_getitem o k with
            | Ok v => next m (v :: st)
            | Raise e => raise_exc code e m
            end
        | _ => Stuck
        end
      else if (op =? "STORE_ATTR")%string then
        match stack m with
        | o :: v :: st => record m st (SetAttr o a v)
        | _ => Stuck
        end
      else if (op =? "STORE_SUBSCR")%string then
        match stack m with
        | k :: o :: v :: st => record m st (SetItem o k v)
        | _ => Stuck
        end
      else if (op =? "DELETE_ATTR")%string then
        match stack m with
        | o :: st => record m st (DelAttr o a)
        | _ => Stuck
        end
      else if (op =? "DELETE_SUBSCR")%string then
        match stack m with
        | k :: o :: st => record m st (DelItem o k)
        | _ => Stuck
        end
      else if (op =? "POP_TOP")%string then
        match stack m with
        | _ :: st => next m st
        | _ => Stuck
        end
      else if (op =? "DUP_TOP")%string then
        match stack m with
        | v :: st => next m (v :: v :: st)
        | _ => Stuck
        end
      else if (op =? "COMPARE_OP")%string then
        match a, stack m with
        | VCompare EXC_MATCH, VClass cls :: VClass raised :: st =>
            next m (VBool (issubclass raised cls) :: st)
        | _, _ => Stuck
        end
      else if (op =? "POP_JUMP_IF_FALSE")%string then
        match stack m with
        | VBool true :: st => next m st
        | VBool false :: st => jump code m st a
        | _ => Stuck
        end
      else if (op =? "JUMP_FORWARD")%string then jump code m (stack m) a
      else if (op =? "SETUP_EXCEPT")%string then
        match a with
        | VLabel l =>
            Running (Machine (S (pc m)) (stack m)
                       (Block B_SETUP_EXCEPT l (length (stack m)) :: blockstack m)
                       (fast m) (exc_info m) (effects m))
        | _ => Stuck
        end
      else if (op =? "POP_BLOCK")%string then
        match blockstack m with
        | b :: bs =>
            Running (Machine (S (pc m)) (pop_to_level (b_level b) (stack m)) bs
                             (fast m) (exc_info m) (effects m))
        | [] => Stuck
        end
      else if (op =? "POP_EXCEPT")%string then
        match blockstack m with
        | Block B_EXCEPT_HANDLER _ level :: bs =>
            match pop_to_level (level + 3) (stack m) with
            | ty :: va :: tb :: st =>
                Running (Machine (S (pc m)) st bs (fast m) (ty, va, tb) (effects m))
            | _ => Stuck
            end
        | _ => Stuck
        end
      else if (op =? "END_FINALLY")%string then
        match stack m with
        | VClass _ :: VExc e :: _ :: st =>
            raise_exc code e
              (Machine (pc m) st (blockstack m) (fast m) (exc_info m) (effects m))
        | VNone :: st => next m st
        | _ => Stuck
        end
      else if (op =? "CALL_FUNCTION")%string then
        match a with
        | VInt n =>
            let argc := Z.to_nat n in
            match drop argc (stack m) with
            | callee :: st =>
                match call frames callee (rev (take argc (stack m))) with
                | Some (Ok v) => next m (v :: st)
                | Some (Raise e) => raise_exc code e m
                | None => Stuck
                end
            | [] => Stuck
            end
        | _ => Stuck
        end
      else Stuck
  end.

Fixpoint run `{Host} (frames : gmap nat frame) (code : list elem) (fuel : nat)
    (m : machine) : outcome :=
  match fuel with
  | 0 => Running m
  | S fuel' =>
      match step frames code m with
      | Running m' => run frames code fuel' m'
      | o => o
      end
  end.

(** Entering a piece of code with the given stack and local slots. *)
Definition start (st : list value) (fast : dict) : machine :=
  Machine 0 st [] fast (VNone, VNone, VNone) [].

End Ceval.

(** ** The with statement *)



(** ** A concrete block

    The code of a function whose body is

      with CaptureLocals() as f:
          x = 7
          y = 8

    as CPython 3.6 or 3.7 compiles it, two bytes an instruction, and the
    frame that runs it, at the time [__exit__] is called. *)

Definition demo_code : list cinstr := [
  CInstr "LOAD_GLOBAL" 0 2;          (*  0 *)
  CInstr "CALL_FUNCTION" 0 2;        (*  2 *)
  CInstr "SETUP_WITH" 14 2;          (*  4 *)
  CInstr "STORE_FAST" 0 2;           (*  6 *)
  CInstr "LOAD_CONST" 1 2;           (*  8 *)
  CInstr "STORE_FAST" 1 2;           (* 10 *)
  CInstr "LOAD_CONST" 2 2;           (* 12 *)
  CInstr "STORE_FAST" 2 2;           (* 14 *)
  CInstr "POP_BLOCK" 0 2;            (* 16 *)
  CInstr "LOAD_CONST" 0 2;           (* 18 *)
  CInstr "WITH_CLEANUP_START" 0 2;   (* 20 *)
  CInstr "WITH_CLEANUP_FINISH" 0 2;  (* 22 *)
  CInstr "END_FINALLY" 0 2;          (* 24 *)
  CInstr "LOAD_CONST" 0 2;           (* 26 *)
  CInstr "RETURN_VALUE" 0 2          (* 28 *)
].

(** Its abstract form: one instruction for each concrete one, and a label
    at the target of [SETUP_WITH]. *)
Definition demo_bytecode : Bytecode :=
  mkBytecode [
    EInstr (Instr "LOAD_GLOBAL" (VStr "CaptureLocals"));
    EInstr (Instr "CALL_FUNCTION" (VInt 0));
    EInstr (Instr "SETUP_WITH" (VLabel 0));
    EInstr (Instr "STORE_FAST" (VStr "f"));
    EInstr (Instr "LOAD_CONST" (VInt 7));
    EInstr (Instr "STORE_FAST" (VStr "x"));
    EInstr (Instr "LOAD_CONST" (VInt 8));
    EInstr (Instr "STORE_FAST" (VStr "y"));
    EInstr (Instr "POP_BLOCK" UNSET);
    EInstr (Instr "LOAD_CONST" VNone);
    ELabel 0;
    EInstr (Instr "WITH_CLEANUP_START" UNSET);
    EInstr (Instr "WITH_CLEANUP_FINISH" UNSET);
    EInstr (Instr "END_FINALLY" UNSET);
    EInstr (Instr "LOAD_CONST" VNone);
    EInstr (Instr "RETURN_VALUE" UNSET)
  ] "demo" [] 0 67.

(** The hack object of the block is object 10. *)
Definition demo_frame : frame := {|
  f_code := demo_code;
  f_lasti := 20;
  f_locals := {[ "f" := VObj 10; "x" := VInt 7; "y" := VInt 8 ]};
  f_globals := {[ "CaptureLocals" := VObj 1 ]};
  f_builtins := {[ "len" := VObj 2 ]};
  f_trace := None;
|}.

(** A host for the examples: [demo_code] decodes to [demo_bytecode], every
    other code to its instructions one by one; objects have no attributes
    and no items but object 3, whose attribute and item "x" is 1; a call
    returns the value passed for the keyword "b"; [exec] does nothing. *)
#[local] Instance demo_host : Host := {|
  to_bytecode code :=
    if decide (code = demo_code) then demo_bytecode
    else mkBytecode ((λ c, EInstr (Instr (c_name c) (VInt (c_arg c)))) <$> code)
                    "demo" [] 0 67;
  py_getattr o x :=
    if decide (o = VObj 3 ∧ x = "x") then Ok (VInt 1)
    else Raise (Exn AttributeError x);
  py_getitem o k :=
    if decide (o = VObj 3 ∧ k = VStr "x") then Ok (VInt 1)
    else Raise (Exn KeyError "key");
  py_call func args kwds := ret (default VNone (kwds !! "b"));
  py_exec code v frame := ret tt;
|}.

(** ** Addressing modes of variable accesses *)





(** The world of the examples: [demo_frame] is frame 0 and is the caller of
    the method that runs; nothing is traced. *)
Definition demo_world : world := {|
  frames := {[ 0 := demo_frame ]};
  sys_trace := None;
  _orig_sys_trace := None;
  _orig_trace_funcs := ∅;
  _injected_trace_funcs := ∅;
  call_stack := [0];
|}.




(** ** The index mappings of the code extractor, one offset at a time *)

(** The index that the first loop of [extract_code] gives to the byte
    offset [o]. *)
Definition offset_index (code : list cinstr) (o : Z) : nat :=
  fst (concrete_indices o o code 0 0 0).

(** The number of instructions of [code], laid out from byte [at_] on, that
    end before the byte offset [o]. *)
Fixpoint count_before (o : Z) (code : list cinstr) (at_ : Z) : nat :=
  match code with
  | [] => 0
  | c :: rest =>
      (if (at_ + c_size c <? o)%Z then 1 else 0)
      + count_before o rest (at_ + c_size c)
  end.

(** What the second loop of [extract_code] leaves in [start_b], and in
    [end_b], for one target index. *)
Fixpoint find_index (target : nat) (bc : list elem) (i at_ : nat) (found : option nat)
    : option nat :=
  match bc with
  | [] => found
  | b :: rest =>
      find_index target rest (S i) (if is_instr b then S at_ else at_)
                 (if decide (at_ = target) then Some i else found)
  end.

(** ** Captured blocks *)

(** The names that the instructions of a sequence store as local or
    name-indexed variables, in the order of the stores. *)
Definition stored_names (bc : list elem) : list string :=
  omap (λ b, match b with
             | EInstr (Instr n (VStr x)) =>
                 if bool_decide (n ∈ ["STORE_FAST"; "STORE_NAME"]) then Some x else None
             | _ => None
             end) bc.

(** The names of a list in the order of their first occurrence. *)
Fixpoint first_assigned (names : list string) : list string :=
  match names with
  | [] => []
  | x :: rest => x :: filter (λ y, y ≠ x) (first_assigned rest)
  end.

(** The items of an [OrderedDict] with the keys [ks], in this order. *)
Definition items (val : string → value) (ks : list string) : OrderedDict :=
  (λ x, (x, val x)) <$> ks.

(** A block of simple assignments, as it is captured: straight-line code,
    so a sequence of instructions without labels, in which every local or
    name-indexed store names a variable that the frame [f] binds when the
    block is left. *)
Definition simple_block (f : frame) (bc : list elem) : Prop :=
  Forall (λ b, ∃ i, b = EInstr i ∧
                 (name i ∈ ["STORE_FAST"; "STORE_NAME"] →
                  ∃ x, arg i = VStr x ∧ is_Some (f_locals f !! x))) bc.

(** The hack objects of the examples, as [__enter__] leaves them: the
    context frame is frame 0 and the block was entered at byte 4, the
    offset of [SETUP_WITH]. *)
Definition demo_capture : CaptureBytecode.obj :=
  CaptureBytecode.Obj (WithHack.Obj 10 true true (Some 0)) (Some 4%Z) None None.

(** ** Tracing *)

(** The tables of [frameutils] agree with the trace functions installed: a
    frame whose trace function is [_invoke_trace_funcs] has an entry in both
    tables, and tracing is switched on while a frame is registered. *)
Definition tracing_consistent (w : world) : Prop :=
  (_orig_trace_funcs w ≠ ∅ → sys_trace w ≠ None) ∧
  ∀ fid f, frames w !! fid = Some f →
           f_trace f = Some F_invoke_trace_funcs →
           is_Some (_injected_trace_funcs w !! fid) ∧
           is_Some (_orig_trace_funcs w !! fid).

(** The body and the as-clause that [CaptureBytecode.__exit__] cuts out of
    [demo_bytecode]. *)
Definition demo_body : Bytecode :=
  set_elems [ EInstr (Instr "LOAD_CONST" (VInt 7)); EInstr (Instr "STORE_FAST" (VStr "x"));
              EInstr (Instr "LOAD_CONST" (VInt 8)); EInstr (Instr "STORE_FAST" (VStr "y")) ]
            demo_bytecode.

Definition demo_as_clause : Bytecode :=
  set_elems [ EInstr (Instr "STORE_FAST" (VStr "f")) ] demo_bytecode.

Definition demo_captured : CaptureBytecode.obj :=
  CaptureBytecode.Obj (WithHack.Obj 10 true true (Some 0)) (Some 4%Z)
                      (Some demo_body) (Some demo_as_clause).

(** The block of the docstring of [xkwargs]:
    [with xkwargs(calculate, b=2) as result: a = 5], run in a frame whose
    block has stored [x] and [y], with one more keyword that a store of the
    block shadows.  The callable is object 20. *)
Definition demo_xkwargs : xkwargs.obj :=
  xkwargs.Obj (CaptureLocals.Obj demo_capture None) (VObj 20) [VInt 1]
              {[ "b" := VInt 2; "x" := VInt 0 ]}.

(** Objects whose as-clause is the discard of [with hack:] and the start of
    the tuple target of [with hack as (a, b):]. *)
Definition demo_discard : CaptureBytecode.obj :=
  CaptureBytecode.Obj (WithHack.Obj 10 true true (Some 0)) (Some 4%Z) (Some demo_body)
    (Some (set_elems [EInstr (Instr "POP_TOP" UNSET)] demo_bytecode)).

Definition demo_unpack : CaptureBytecode.obj :=
  CaptureBytecode.Obj (WithHack.Obj 10 true true (Some 0)) (Some 4%Z) (Some demo_body)
    (Some (set_elems [EInstr (Instr "UNPACK_SEQUENCE" (VInt 2));
                      EInstr (Instr "STORE_FAST" (VStr "a"))] demo_bytecode)).




(** A host whose decoder leaves out [NOP] instructions, and a frame whose
    code has one. *)
Definition nop_dropping_host : Host := {|
  to_bytecode code :=
    mkBytecode ((λ c, EInstr (Instr (c_name c) (VInt (c_arg c))))
                  <$> filter (λ c, c_name c ≠ "NOP") code) "demo" [] 0 67;
  py_getattr o x := Raise (Exn AttributeError x);
  py_getitem o k := Raise (Exn KeyError "key");
  py_call func args kwds := ret VNone;
  py_exec code v frame := ret tt;
|}.

Definition nop_frame : frame :=
  Frame [CInstr "NOP" 0 2; CInstr "LOAD_CONST" 0 2; CInstr "RETURN_VALUE" 0 2]
        0 ∅ ∅ ∅ None.

(** ** The markers of a with block *)

(** An instruction with the given opcode name. *)
Definition named (n : string) (b : elem) : Prop := ∃ a, b = EInstr (Instr n a).

(** The instruction that ends the as-clause: a store of any kind, or the
    discard of the value. *)
Definition ends_as_clause (b : elem) : Prop :=
  ∃ i, b = EInstr i ∧ (String.prefix "STORE" (name i) = true ∨ name i = "POP_TOP").

(** An instruction of the as-clause before its end. *)
Definition inside_as_clause (b : elem) : Prop :=
  ∃ i, b = EInstr i ∧ String.prefix "STORE" (name i) = false ∧ name i ≠ "POP_TOP".

(** The code that [extract_code] returns for [demo_frame] between the
    offsets 4 and 20. *)
Definition demo_extracted : Bytecode :=
  set_elems [ EInstr (Instr "CALL_FUNCTION" (VInt 0)); EInstr (Instr "SETUP_WITH" (VLabel 0));
              EInstr (Instr "STORE_FAST" (VStr "f"));
              EInstr (Instr "LOAD_CONST" (VInt 7)); EInstr (Instr "STORE_FAST" (VStr "x"));
              EInstr (Instr "LOAD_CONST" (VInt 8)); EInstr (Instr "STORE_FAST" (VStr "y"));
              EInstr (Instr "POP_BLOCK" UNSET) ] demo_bytecode.

(** The same frame stopped at byte 16, before its [POP_BLOCK] has run. *)
Definition early_frame : frame :=
  Frame demo_code 16 (f_locals demo_frame) (f_globals demo_frame)
        (f_builtins demo_frame) None.

Definition early_world : world := {|
  frames := {[ 0 := early_frame ]};
  sys_trace := None;
  _orig_sys_trace := None;
  _orig_trace_funcs := ∅;
  _injected_trace_funcs := ∅;
  call_stack := [0];
|}.

(** ** More of withhacks/__init__.py *)

Module xargs.

Record obj := Obj {
  cl : CaptureLocals.obj OrderedDict;
  _xargs__func : value;
  _xargs__args : list value;
  _xargs__kwds : dict;
}.

#[global] Instance inherits : Inherits obj (CaptureLocals.obj OrderedDict) := {|
  base := cl;
  with_base b o := Obj b (_xargs__func o) (_xargs__args o) (_xargs__kwds o);
|}.

(** [xargs(func, *args, **kwds)] *)
Definition __init__ (id : nat) (func : value) (args : list value) (kwds : dict) : obj :=
  Obj (CaptureLocals.__init__ id) func args kwds.

(** [self.__exit__] with the three arguments of the protocol *)
Definition __exit__ `{Host} (exc_type exc_value traceback : value) : M (st obj) bool :=
  retcode ← super (CaptureLocals.__exit__ exc_type exc_value traceback);
  o ← get_self;
  match CaptureLocals.locals (cl o) with
  | None => raise (Exn AttributeError "locals")
  | Some locals =>
      let args_ := _xargs__args o in
      let args_ := args_ ++ ((λ '(nm, arg), arg) <$> locals) in
      retval ← in_world (py_call (_xargs__func o) args_ (_xargs__kwds o));
      super (super (CaptureBytecode._run_as_clause retval));;
      ret retcode
  end.

End xargs.

(** The block of the docstring of [xargs], reduced to assignments that are
    captured: [with xargs(func, 1) as r: x = 7; y = 8].  The callable is
    object 20. *)
Definition demo_xargs : xargs.obj :=
  xargs.Obj (CaptureLocals.Obj demo_capture None) (VObj 20) [VInt 1]
            {[ "b" := VInt 2 ]}.

(** The frame of [modified_frame] when the block is entered: only [x] is
    bound. *)
Definition entry_world : world := {|
  frames := {[ 0 := set_f_locals {[ "x" := VInt 7 ]} demo_frame ]};
  sys_trace := None;
  _orig_sys_trace := None;
  _orig_trace_funcs := ∅;
  _injected_trace_funcs := ∅;
  call_stack := [0];
|}.

(** ** Target-redirect rewriting, element by element *)

(** A sequence in which every element stands for itself, or for the
    replacement that [replace] gives for it. *)
Fixpoint expand (replace : nat → elem → nat → result (option (list elem)))
    (lbl : nat) (funcode : list elem) (frame : nat) : result (list elem) :=
  match funcode with
  | [] => Ok []
  | b :: rest =>
      match replace lbl b frame with
      | Raise e => Raise e
      | Ok repl =>
          match expand replace (lbl + 3) rest frame with
          | Raise e => Raise e
          | Ok rest' =>
              Ok (match repl with
                  | Some (r :: repl) => r :: repl
                  | _ => [b]
                  end ++ rest')
          end
      end
  end.

(** ** What a run of the interpreter shows *)

(** The value stack a piece of code leaves when it runs to its end, or the
    exception it lets escape, with the stores and deletes done on objects. *)
Definition observed (o : Ceval.outcome)
    : option (result (list value) * list Ceval.effect) :=
  match o with
  | Ceval.Finished m => Some (Ok (Ceval.stack m), Ceval.effects m)
  | Ceval.Propagated e m => Some (Raise e, Ceval.effects m)
  | _ => None
  end.

(** The local slots a piece of code leaves when it runs to its end. *)
Definition fast_after (o : Ceval.outcome) : option dict :=
  match o with
  | Ceval.Finished m => Some (Ceval.fast m)
  | _ => None
  end.

(** Two frames without trace functions, and no system trace function. *)
Definition two_frame_world : world := {|
  frames := {[ 0 := demo_frame; 1 := early_frame ]};
  sys_trace := None;
  _orig_sys_trace := None;
  _orig_trace_funcs := ∅;
  _injected_trace_funcs := ∅;
  call_stack := [1; 0];
|}.

(** The frame of a method of object 10, and a call stack on which two such
    frames lie over the frame of the with-statement. *)
Definition method_frame : frame := set_f_locals {[ "self" := VObj 10 ]} demo_frame.

Definition nested_world : world := {|
  frames := {[ 0 := demo_frame; 1 := method_frame; 2 := method_frame ]};
  sys_trace := None;
  _orig_sys_trace := None;
  _orig_trace_funcs := ∅;
  _injected_trace_funcs := ∅;
  call_stack := [2; 1; 0];
|}.

(** The frame binds the name "self" to the object [id]. *)
Definition binds_self (frames : gmap nat frame) (id : nat) (fid : nat) : Prop :=
  ∃ f, frames !! fid = Some f ∧ f_locals f !! "self" = Some (VObj id).

(** What stops the loop of [CaptureLocals.__exit__] at an element: a label
    or line marker has no [name]; for a store of a name that the frame does
    not bind there is no value to capture. *)
Definition capture_failure (f : frame) (b : elem) : option exc_class :=
  match b with
  | EInstr i =>
      if bool_decide (name i ∈ ["STORE_FAST"; "STORE_NAME"]) then
        match name_of (arg i) ≫= (λ x, f_locals f !! x) with
        | Some _ => None
        | None => Some KeyError
        end
      else None
  | _ => Some AttributeError
  end.

(** ** CaptureFunction *)

(** [Bytecode.to_code] of the [bytecode] library: it assembles a code
    object, or raises. *)
Class Assembler (code : Type) := {
  to_code : Bytecode → result code;
}.

Module CaptureFunction.

(** A function object, as [types.FunctionType(code, globals, name, argdefs)]
    makes it. *)
Record function_obj (code : Type) := Function {
  fn_code : code;
  fn_globals : dict;
  fn_name : string;
  fn_defaults : list value;
}.
Arguments Function {code} fn_code fn_globals fn_name fn_defaults.
Arguments fn_code {code} f.
Arguments fn_globals {code} f.
Arguments fn_name {code} f.
Arguments fn_defaults {code} f.

Record obj (code : Type) := Obj {
  cb : CaptureBytecode.obj;
  _CaptureFunction__args : list string;
  _CaptureFunction__varargs : bool;
  _CaptureFunction__varkwargs : bool;
  _CaptureFunction__name : string;
  _CaptureFunction__argdefs : list value;
  function : option (function_obj code);
}.
Arguments Obj {code} cb _ _ _ _ _ function.
Arguments cb {code} o.
Arguments _CaptureFunction__args {code} o.
Arguments _CaptureFunction__varargs {code} o.
Arguments _CaptureFunction__varkwargs {code} o.
Arguments _CaptureFunction__name {code} o.
Arguments _CaptureFunction__argdefs {code} o.
Arguments function {code} o.

#[global] Instance inherits {code} : Inherits (obj code) CaptureBytecode.obj := {|
  base := cb;
  with_base b o := Obj b (_CaptureFunction__args o) (_CaptureFunction__varargs o)
                       (_CaptureFunction__varkwargs o) (_CaptureFunction__name o)
                       (_CaptureFunction__argdefs o) (function o);
|}.

Definition set_function {code} (fn : option (function_obj code)) (o : obj code)
    : obj code :=
  Obj (cb o) (_CaptureFunction__args o) (_CaptureFunction__varargs o)
      (_CaptureFunction__varkwargs o) (_CaptureFunction__name o)
      (_CaptureFunction__argdefs o) fn.

(** [CaptureFunction(args, varargs, varkwargs, name, argdefs)] *)
Definition __init__ {code} (id : nat) (args : list string) (varargs varkwargs : bool)
    (name : string) (argdefs : list value) : obj code :=
  Obj (CaptureBytecode.__init__ id) args varargs varkwargs name argdefs None.

Definition CO_VARARGS : Z := 4.
Definition CO_VARKEYWORDS : Z := 8.

(** The [funcode] that [__exit__] builds from the captured bytecode [bc]
    and the locals of the context frame, as it is when [to_code] is called
    on it. *)
Definition funcode {code} (o : obj code) (bc : Bytecode) (locals : dict) : Bytecode :=
  let args := _CaptureFunction__args o in
  (* Ensure it's a properly formed func by always returning something *)
  let instrs := elems bc ++ [EInstr (Instr "LOAD_CONST" VNone);
                             EInstr (Instr "RETURN_VALUE" UNSET)] in
  let instrs := CaptureBytecode._change_lookups instrs args locals in
  let flags := flags bc in
  let argcount := Z.of_nat (length args) in
  let '(flags, argcount) :=
    if _CaptureFunction__varargs o
    then (Z.lor flags CO_VARARGS, (argcount - 1)%Z) else (flags, argcount) in
  let '(flags, argcount) :=
    if _CaptureFunction__varkwargs o
    then (Z.lor flags CO_VARKEYWORDS, (argcount - 1)%Z) else (flags, argcount) in
  mkBytecode instrs (_CaptureFunction__name o) args argcount flags.

(** [self.__exit__] with the three arguments of the protocol *)
Definition __exit__ `{Host} {code} `{Assembler code}
    (exc_type exc_value traceback : value) : M (st (obj code)) bool :=
  frame ← super (super WithHack._get_context_frame);
  retcode ← super (CaptureBytecode.__exit__ exc_type exc_value traceback);
  o ← get_self;
  match CaptureBytecode.bytecode (cb o) with
  | None => raise (Exn AttributeError "append")
  | Some bc =>
      f ← in_world (get_frame frame);
      let funcode := funcode o bc (f_locals f) in
      (* the copy shares its instructions with the captured bytecode, so
         renaming them renames those of [self.bytecode] too *)
      super (set_self (CaptureBytecode.set_bytecode
        (Some (set_elems (CaptureBytecode._change_lookups (elems bc)
                            (_CaptureFunction__args o) (f_locals f)) bc))));;
      (* Create the resulting function object *)
      frame' ← super (super WithHack._get_context_frame);
      f' ← in_world (get_frame frame');
      c ← lift_result (to_code funcode);
      set_self (set_function
        (Some (Function c (f_globals f') (_CaptureFunction__name o)
                        (_CaptureFunction__argdefs o))));;
      ret retcode
  end.

End CaptureFunction.





(** * Properties *)

(** Unfolding of the monad and of method calls on a concrete state. *)
Ltac munfold :=
  unfold super, in_world, get_self, set_self, ret, raise, lift_result, catch,
         get, put, modify, get_frame, set_frame;
  unfold mbind, mret, M_bind, M_ret; simpl.

(** ** The name resolver *)

(** C8: [load_name(frame, name)] returns the value bound to [name] in the
    local bindings of the frame, else the one in its global bindings, else
    the one in its built-in bindings; it raises [NameError] exactly when
    the name is absent from all three.  It is a function of the frame alone
    and returns nothing but the value: it mutates nothing. *)
Theorem load_name_resolution (fr : frame) (x : string) :
  (∀ v, f_locals fr !! x = Some v → load_name fr x = Ok v) ∧
  (∀ v, f_locals fr !! x = None → f_globals fr !! x = Some v →
        load_name fr x = Ok v) ∧
  (∀ v, f_locals fr !! x = None → f_globals fr !! x = None →
        f_builtins fr !! x = Some v → load_name fr x = Ok v) ∧
  ((∃ e, load_name fr x = Raise e) ↔
     f_locals fr !! x = None ∧ f_globals fr !! x = None ∧
     f_builtins fr !! x = None) ∧
  (∀ e, load_name fr x = Raise e → e = Exn NameError x).
Proof.
  unfold load_name.
  destruct (f_locals fr !! x) as [vl|] eqn:Hl;
    destruct (f_globals fr !! x) as [vg|] eqn:Hg;
    destruct (f_builtins fr !! x) as [vb|] eqn:Hb;
    repeat split; intros; simplify_eq; try done;
    try (by destruct_and?);
    try (match goal with H : ∃ _, _ |- _ => destruct H; done end);
    eauto.
Qed.

Lemma load_name_resolution_witness :
  load_name demo_frame "y" = Ok (VInt 8) ∧
  load_name demo_frame "CaptureLocals" = Ok (VObj 1) ∧
  load_name demo_frame "len" = Ok (VObj 2) ∧
  load_name demo_frame "nowhere" = Raise (Exn NameError "nowhere").
Proof.
  destruct (load_name_resolution demo_frame "y") as (H1 & _).
  destruct (load_name_resolution demo_frame "CaptureLocals") as (_ & H2 & _).
  destruct (load_name_resolution demo_frame "len") as (_ & _ & H3 & _).
  destruct (load_name_resolution demo_frame "nowhere") as (_ & _ & _ & H4 & H5).
  split; [by apply H1|]. split; [by apply H2|]. split; [by apply H3|].
  destruct (proj2 H4) as [e He]; [done|]. by rewrite He, (H5 e He).
Defined.

(** ** The exit handler of the base class *)

(** C7: [WithHack.__exit__] returns true, which tells the engine to
    suppress the exception, exactly when the exception type is the class
    [_ExitContext] itself; for every other type and when there is no
    exception it returns false, and the exception passes through.  The
    handler changes neither the object nor the world. *)
Theorem WithHack_exit_suppresses_only_ExitContext
    (exc_type exc_value traceback : value) (s : st WithHack.obj) :
  ∃ b, WithHack.__exit__ exc_type exc_value traceback s = (Ok b, s) ∧
       (b = true ↔ exc_type = VClass _ExitContext).
Proof.
  unfold WithHack.__exit__. case_decide; eexists; (split; [reflexivity|]); naive_solver.
Qed.

(** ** Function-mode rewriting *)

Import CaptureBytecode.

(** Membership of a literal opcode name in a literal tuple of names. *)
Ltac eval_opname_tests :=
  repeat match goal with
  | |- context [bool_decide (String ?a ?b ∈ ?l)] =>
      let t := constr:(bool_decide (String a b ∈ l)) in
      let v := eval vm_compute in t in
      change t with v; cbv iota
  end.

(** [_change_lookups] keeps the length of the sequence, the argument of
    every instruction, and every label and line marker. *)
Lemma _change_lookups_length code args locals :
  length (_change_lookups code args locals) = length code.
Proof. unfold _change_lookups. by rewrite length_fmap. Qed.


Lemma _change_lookups_lookup code args locals k :
  _change_lookups code args locals !! k =
    (λ b, match b with
          | EInstr i => EInstr (change_lookup args locals i)
          | _ => b
          end) <$> code !! k.
Proof. unfold _change_lookups. by rewrite list_lookup_fmap. Qed.




(** ** Dictionaries *)

Lemma dict_update_lookup (d other : dict) (k : string) :
  dict_update d other !! k =
    match other !! k with Some v => Some v | None => d !! k end.
Proof.
  unfold dict_update. revert k.
  apply (map_fold_weak_ind
           (λ (r m : dict), ∀ k, r !! k = match m !! k with
                                          | Some v => Some v
                                          | None => d !! k
                                          end)).
  - intros k. by rewrite lookup_empty.
  - intros i x m r Hi IH k. destruct (decide (i = k)) as [->|Hne].
    + by rewrite !lookup_insert_eq.
    + rewrite !lookup_insert_ne by done. apply IH.
Qed.

Lemma dict_update_singleton (d : dict) (x : string) (v : value) :
  dict_update d {[ x := v ]} = <[x := v]> d.
Proof.
  apply map_eq. intros k. rewrite dict_update_lookup.
  destruct (decide (x = k)) as [->|Hne].
  - by rewrite lookup_singleton_eq, lookup_insert_eq.
  - by rewrite lookup_singleton_ne, lookup_insert_ne.
Qed.

(** ** The context frame *)

(** [_get_context_frame] changes nothing but the cache: on success the
    frame found is cached, on failure the state is as before. *)
Lemma _get_context_frame_inv (o : WithHack.obj) (w : world) :
  (∃ fid, WithHack._get_context_frame (St o w)
            = (Ok fid, St (WithHack.set_frame_cache fid o) w)) ∨
  (∃ e, WithHack._get_context_frame (St o w) = (Raise e, St o w)).
Proof.
  unfold WithHack._get_context_frame. munfold.
  destruct (WithHack._WithHack__frame o) as [fid|] eqn:Hc.
  - left. exists fid. destruct o; simpl in *. by subst.
  - simpl. destruct (call_stack w) as [|fid back]; simpl; [right; by eexists|].
    destruct (WithHack.find_context_frame _ _ fid back) as [fid'|e]; simpl;
      [left|right]; by eexists.
Qed.

Lemma _get_context_frame_ok (o : WithHack.obj) (w : world) (fid : nat) :
  fst (WithHack._get_context_frame (St o w)) = Ok fid →
  WithHack._get_context_frame (St o w)
    = (Ok fid, St (WithHack.set_frame_cache fid o) w).
Proof.
  intros H. destruct (_get_context_frame_inv o w) as [[fid' Heq]|[e Heq]];
    rewrite Heq in H; simpl in H; by simplify_eq.
Qed.

Lemma _get_context_frame_cached (o : WithHack.obj) (w : world) (fid : nat) :
  WithHack._WithHack__frame o = Some fid →
  WithHack._get_context_frame (St o w) = (Ok fid, St o w).
Proof. intros Hc. unfold WithHack._get_context_frame. munfold. by rewrite Hc. Qed.

(** ** Modified locals *)




(** ** The code extractor *)

Section extract_code.

Context `{Host}.

Lemma concrete_indices_count (start end_ : Z) (code : list cinstr) (at_ : Z)
    (start_c end_c : nat) :
  concrete_indices start end_ code at_ start_c end_c =
    (start_c + count_before start code at_, end_c + count_before end_ code at_).
Proof.
  revert at_ start_c end_c. induction code as [|c rest IH]; intros at_ sc ec; simpl.
  - f_equal; lia.
  - rewrite IH. destruct (_ <? start)%Z, (_ <? end_)%Z; f_equal; lia.
Qed.

Lemma offset_index_count (code : list cinstr) (o : Z) :
  offset_index code o = count_before o code 0.
Proof. unfold offset_index. by rewrite concrete_indices_count. Qed.

Lemma count_before_mono (s e : Z) (code : list cinstr) (at_ : Z) :
  (s ≤ e)%Z → count_before s code at_ ≤ count_before e code at_.
Proof.
  intros Hse. revert at_. induction code as [|c rest IH]; intros at_; simpl; [lia|].
  specialize (IH (at_ + c_size c)%Z).
  destruct (Z.ltb_spec (at_ + c_size c) s), (Z.ltb_spec (at_ + c_size c) e); lia.
Qed.

Lemma count_before_le_length (o : Z) (code : list cinstr) (at_ : Z) :
  count_before o code at_ ≤ length code.
Proof.
  revert at_. induction code as [|c rest IH]; intros at_; simpl; [lia|].
  specialize (IH (at_ + c_size c)%Z). destruct (_ <? o)%Z; lia.
Qed.

(** An offset within the code maps to the index of an instruction. *)
Lemma count_before_lt_length (o : Z) (code : list cinstr) (at_ : Z) :
  code ≠ [] → (o ≤ at_ + len_co_code code)%Z →
  count_before o code at_ < length code.
Proof.
  revert at_. induction code as [|c rest IH]; intros at_ Hne Ho; [done|].
  simpl in *. destruct rest as [|c' rest'].
  - simpl in *. destruct (Z.ltb_spec (at_ + c_size c) o); lia.
  - specialize (IH (at_ + c_size c)%Z ltac:(done)).
    destruct (_ <? o)%Z; simpl in *; lia.
Qed.

Lemma len_co_code_app (l1 l2 : list cinstr) :
  len_co_code (l1 ++ l2) = (len_co_code l1 + len_co_code l2)%Z.
Proof. induction l1 as [|c l1 IH]; simpl; [done|]. unfold len_co_code in *. lia. Qed.

Lemma count_before_past (o : Z) (code : list cinstr) (at_ : Z) :
  Forall (λ c, 0 < c_size c)%Z code → (o ≤ at_)%Z → count_before o code at_ = 0.
Proof.
  intros Hpos. revert at_. induction Hpos as [|c rest Hc Hrest IH]; intros at_ Ho;
    simpl; [done|].
  rewrite IH by lia. destruct (Z.ltb_spec (at_ + c_size c) o); lia.
Qed.

(** An offset strictly inside an instruction maps to that instruction. *)
Lemma count_before_inside (o : Z) (pre : list cinstr) (c : cinstr)
    (post : list cinstr) (at_ : Z) :
  Forall (λ c, 0 < c_size c)%Z (pre ++ c :: post) →
  (at_ + len_co_code pre < o < at_ + len_co_code pre + c_size c)%Z →
  count_before o (pre ++ c :: post) at_ = length pre.
Proof.
  revert at_. induction pre as [|p pre IH]; intros at_ Hpos Ho; simpl in *.
  - apply Forall_cons in Hpos as [Hc Hpost].
    rewrite count_before_past by (done || lia).
    destruct (Z.ltb_spec (at_ + c_size c) o); lia.
  - apply Forall_cons in Hpos as [Hp Hpos].
    assert (0 ≤ len_co_code pre)%Z as Hnn.
    { clear -Hpos. apply Forall_app in Hpos as [Hpre _].
      induction Hpre as [|q pre Hq _ IH]; simpl; lia. }
    rewrite IH by (done || lia).
    destruct (Z.ltb_spec (at_ + c_size p) o); lia.
Qed.

(** An offset on the boundary between two instructions maps to the first of
    the two. *)
Lemma count_before_boundary (pre : list cinstr) (c : cinstr) (post : list cinstr)
    (at_ : Z) :
  Forall (λ c, 0 < c_size c)%Z (pre ++ c :: post) →
  count_before (at_ + len_co_code (pre ++ [c])) (pre ++ c :: post) at_ = length pre.
Proof.
  revert at_. induction pre as [|p pre IH]; intros at_ Hpos; simpl in *.
  - apply Forall_cons in Hpos as [Hc Hpost].
    rewrite count_before_past by (done || lia).
    destruct (Z.ltb_spec (at_ + c_size c) (at_ + (c_size c + 0))); lia.
  - apply Forall_cons in Hpos as [Hp Hpos].
    assert (0 < len_co_code (pre ++ [c]))%Z as Hnn.
    { rewrite len_co_code_app. simpl.
      apply Forall_app in Hpos as [Hpre Hc]. apply Forall_cons in Hc as [Hc _].
      clear -Hpre Hc. induction Hpre as [|q pre Hq _ IH]; simpl; lia. }
    specialize (IH (at_ + c_size p)%Z Hpos).
    replace (at_ + (c_size p + len_co_code (pre ++ [c])))%Z
      with (at_ + c_size p + len_co_code (pre ++ [c]))%Z by lia.
    rewrite IH.
    destruct (Z.ltb_spec (at_ + c_size p)
                (at_ + c_size p + len_co_code (pre ++ [c]))); lia.
Qed.

Lemma bytecode_indices_find (start_c end_c : nat) (bc : list elem) (i at_ : nat)
    (start_b end_b : option nat) :
  bytecode_indices start_c end_c bc i at_ start_b end_b =
    (at_ + length (instrs_of bc),
     find_index start_c bc i at_ start_b,
     find_index end_c bc i at_ end_b).
Proof.
  revert i at_ start_b end_b. induction bc as [|b rest IH]; intros i at_ sb eb; simpl.
  - do 2 f_equal. lia.
  - rewrite IH. destruct b; simpl; do 2 f_equal; lia.
Qed.

Lemma find_index_past (target : nat) (bc : list elem) (i at_ : nat) (found : option nat) :
  target < at_ → find_index target bc i at_ found = found.
Proof.
  revert i at_ found. induction bc as [|b rest IH]; intros i at_ found Hlt; simpl; [done|].
  rewrite IH by (destruct (is_instr b); lia). case_decide; [lia|done].
Qed.

(** The index found for the number of an instruction of the sequence is the
    position of that instruction. *)
Lemma find_index_position (target : nat) (bc : list elem) (i at_ : nat)
    (found : option nat) :
  at_ ≤ target < at_ + length (instrs_of bc) →
  ∃ p, find_index target bc i at_ found = Some (i + p) ∧
       length (instrs_of (take p bc)) = target - at_ ∧
       ∃ ins, bc !! p = Some (EInstr ins).
Proof.
  revert i at_ found. induction bc as [|b rest IH]; intros i at_ found Hrange;
    simpl in *; [lia|].
  destruct (decide (at_ = target)) as [->|Hne].
  - destruct b as [ins|l|n]; simpl in *.
    + exists 0. rewrite find_index_past by lia. rewrite Nat.add_0_r.
      split; [done|]. split; [simpl; lia|]. by exists ins.
    + destruct (IH (S i) target (Some i) ltac:(lia)) as (p & Hp & Hlen & Hins).
      exists (S p). rewrite Hp. split; [f_equal; lia|]. by split.
    + destruct (IH (S i) target (Some i) ltac:(lia)) as (p & Hp & Hlen & Hins).
      exists (S p). rewrite Hp. split; [f_equal; lia|]. by split.
  - destruct b as [ins|l|n]; simpl in *.
    + destruct (IH (S i) (S at_) found ltac:(lia)) as (p & Hp & Hlen & Hins).
      exists (S p). rewrite Hp. split; [f_equal; lia|]. split; [simpl; lia|done].
    + destruct (IH (S i) at_ found ltac:(lia)) as (p & Hp & Hlen & Hins).
      exists (S p). rewrite Hp. split; [f_equal; lia|]. by split.
    + destruct (IH (S i) at_ found ltac:(lia)) as (p & Hp & Hlen & Hins).
      exists (S p). rewrite Hp. split; [f_equal; lia|]. by split.
Qed.

Lemma instrs_of_app (l1 l2 : list elem) :
  instrs_of (l1 ++ l2) = instrs_of l1 ++ instrs_of l2.
Proof. apply omap_app. Qed.

(** Slicing the sequence between the positions of two of its instructions
    keeps exactly the instructions between the two. *)
Lemma instrs_of_slice (bc : list elem) (ps pe sc ec : nat) (ins : instr) :
  sc ≤ ec →
  length (instrs_of (take ps bc)) = sc →
  length (instrs_of (take pe bc)) = ec →
  bc !! pe = Some (EInstr ins) →
  instrs_of (take (pe - ps) (drop ps bc)) = take (ec - sc) (drop sc (instrs_of bc)).
Proof.
  intros Hle Hs He Hpe.
  assert (ps ≤ pe) as Hp.
  { destruct (decide (ps ≤ pe)) as [|Hgt]; [done|]. exfalso.
    assert (take ps bc = take pe bc ++ EInstr ins :: take (ps - S pe) (drop (S pe) bc))
      as Heq.
    { rewrite <- (take_drop pe bc) at 1. rewrite take_app_ge by (rewrite length_take; lia).
      f_equal. rewrite length_take_le by (apply lookup_lt_Some in Hpe; lia).
      rewrite (drop_S _ _ _ Hpe). replace (ps - pe) with (S (ps - S pe)) by lia.
      done. }
    rewrite Heq, instrs_of_app, length_app in Hs. simpl in Hs. lia. }
  assert (take pe bc = take ps bc ++ take (pe - ps) (drop ps bc)) as Hsplit.
  { rewrite <- (take_drop ps bc) at 1.
    destruct (decide (ps ≤ length bc)).
    - rewrite take_app_ge by (rewrite length_take; lia).
      by rewrite length_take_le by lia.
    - rewrite (take_ge bc ps) by lia. rewrite (drop_ge bc ps) by lia.
      rewrite take_nil, !app_nil_r. rewrite take_ge; [done|lia]. }
  assert (instrs_of bc = instrs_of (take pe bc) ++ instrs_of (drop pe bc)) as Hall
    by (by rewrite <- instrs_of_app, take_drop).
  rewrite Hall, Hsplit, instrs_of_app, <- app_assoc.
  rewrite drop_app_length' by done.
  rewrite take_app_length'; [done|].
  rewrite Hsplit, instrs_of_app, length_app in He. lia.
Qed.

Lemma instrs_of_slice_nil (l : list elem) (n m : nat) :
  instrs_of l = [] → instrs_of (take n (drop m l)) = [].
Proof.
  revert n m. induction l as [|b l IH]; intros n m Hl.
  - by rewrite drop_nil, take_nil.
  - destruct b as [ins|lbl|ln]; [done| |]; simpl in Hl;
      (destruct m as [|m]; [destruct n as [|n]; [done|]; simpl;
                            apply (IH n 0 Hl) | apply (IH n m Hl)]).
Qed.

(** C1: for byte offsets [start <= end] within the code of the frame, and
    a code whose abstract form has one instruction for each concrete one,
    [extract_code(frame, start, end)] returns a sequence whose instructions
    are exactly those of the abstract form from the index of [start] up to,
    and not including, the index of [end], each once and in order; their
    number is the difference of the two indices.  An offset that lies
    strictly inside an instruction has the index of that instruction. *)
Theorem extract_code_slice (fr : frame) (start end_ : Z) :
  (start ≤ end_ ≤ len_co_code (f_code fr))%Z →
  length (instrs_of (elems (to_bytecode (f_code fr)))) = length (f_code fr) →
  Forall (λ c, 0 < c_size c)%Z (f_code fr) →
  let start_c := offset_index (f_code fr) start in
  let end_c := offset_index (f_code fr) end_ in
  concrete_indices start end_ (f_code fr) 0 0 0 = (start_c, end_c) ∧
  (∃ bc, extract_code fr (Some start) (Some end_) = Ok bc ∧
         instrs_of (elems bc) =
           take (end_c - start_c)
                (drop start_c (instrs_of (elems (to_bytecode (f_code fr))))) ∧
         length (instrs_of (elems bc)) = end_c - start_c) ∧
  (∀ pre c post o,
     f_code fr = pre ++ c :: post →
     (len_co_code pre < o < len_co_code pre + c_size c)%Z →
     offset_index (f_code fr) o = length pre).
Proof.
  intros Hrange Hone Hpos start_c end_c.
  assert (concrete_indices start end_ (f_code fr) 0 0 0 = (start_c, end_c)) as Hci.
  { unfold start_c, end_c. by rewrite concrete_indices_count, !offset_index_count. }
  split; [done|]. split.
  - unfold extract_code. simpl. rewrite Hci, bytecode_indices_find. simpl.
    rewrite Hone. rewrite decide_True by done. eexists. split; [reflexivity|].
    simpl. set (bc := elems (to_bytecode (f_code fr))) in *.
    assert (start_c ≤ end_c) as Hle.
    { unfold start_c, end_c. rewrite !offset_index_count.
      apply count_before_mono. lia. }
    destruct (decide (f_code fr = [])) as [Hcode|Hcode].
    { rewrite Hcode in Hone. destruct (instrs_of bc) eqn:Hi; [|done].
      unfold py_slice. rewrite instrs_of_slice_nil by done.
      assert (end_c = 0) as Hz
        by (unfold end_c; rewrite offset_index_count, Hcode; done).
      rewrite Hz, drop_nil, take_nil. simpl. split; [done|lia]. }
    assert (end_c < length (instrs_of bc)) as Hend.
    { rewrite Hone. unfold end_c. rewrite offset_index_count.
      apply count_before_lt_length; [done|lia]. }
    destruct (find_index_position start_c bc 0 0 None ltac:(lia))
      as (ps & -> & Hps & _).
    destruct (find_index_position end_c bc 0 0 None ltac:(lia))
      as (pe & -> & Hpe & ins & Hins).
    unfold py_slice. simpl. rewrite Nat.sub_0_r in Hps, Hpe.
    rewrite (instrs_of_slice bc ps pe start_c end_c ins) by done.
    split; [done|]. rewrite length_take, length_drop. lia.
  - intros pre c post o Hcode Ho. rewrite offset_index_count, Hcode.
    apply count_before_inside; [by rewrite <- Hcode|lia].
Qed.

End extract_code.

Lemma extract_code_slice_witness :
  offset_index demo_code 4 = 1 ∧ offset_index demo_code 20 = 9 ∧
  offset_index demo_code 5 = 2 ∧
  ∃ bc, extract_code demo_frame (Some 4%Z) (Some 20%Z) = Ok bc ∧
        instrs_of (elems bc) =
          [ Instr "CALL_FUNCTION" (VInt 0); Instr "SETUP_WITH" (VLabel 0);
            Instr "STORE_FAST" (VStr "f");
            Instr "LOAD_CONST" (VInt 7); Instr "STORE_FAST" (VStr "x");
            Instr "LOAD_CONST" (VInt 8); Instr "STORE_FAST" (VStr "y");
            Instr "POP_BLOCK" UNSET ] ∧
        length (instrs_of (elems bc)) = 9 - 1.
Proof.
  assert (4 ≤ 20 ≤ len_co_code (f_code demo_frame))%Z as Hrange
    by (vm_compute; split; discriminate).
  assert (length (instrs_of (elems (to_bytecode (f_code demo_frame))))
          = length (f_code demo_frame)) as Hone by reflexivity.
  assert (Forall (λ c, 0 < c_size c)%Z (f_code demo_frame)) as Hpos
    by (apply (bool_decide_unpack _); vm_compute; reflexivity).
  destruct (extract_code_slice demo_frame 4 20 Hrange Hone Hpos)
    as (Hidx & (bc & Hbc & Hins & Hlen) & Hround).
  split; [reflexivity|]. split; [reflexivity|]. split.
  - apply (Hround [CInstr "LOAD_GLOBAL" 0 2; CInstr "CALL_FUNCTION" 0 2]
                  (CInstr "SETUP_WITH" 14 2)
                  (drop 3 demo_code)); [reflexivity|vm_compute; split; reflexivity].
  - exists bc. split; [exact Hbc|]. split; [exact Hins|exact Hlen].
Defined.

(** ** Capturing the bytecode of a block *)



(** ** Capturing the locals of a block *)

Section capture_locals.

Context `{Host}.

Lemma set_locals_id {D} (o : CaptureLocals.obj D) (d : D) :
  CaptureLocals.locals o = Some d → CaptureLocals.set_locals (Some d) o = o.
Proof. destruct o; simpl. by intros ->. Qed.

Lemma stored_names_bound (f : frame) (bc : list elem) (x : string) :
  simple_block f bc → x ∈ stored_names bc → is_Some (f_locals f !! x).
Proof.
  intros Hblock Hx. apply list_elem_of_omap in Hx as (b & Hb & Hx).
  unfold simple_block in Hblock. rewrite Forall_forall in Hblock.
  destruct (Hblock b Hb) as (i & -> & Hstore).
  destruct i as [n [| | | |y| | | | | | | | |]]; try done.
  simpl in *. case_bool_decide; [|done]. simplify_eq.
  destruct (Hstore ltac:(done)) as (y & [= ->] & Hy). done.
Qed.

Lemma capture_store_store {D} `{DestType D} (fid : nat) (f : frame) (w : world)
    (o : CaptureLocals.obj D) (d : D) (n x : string) (v : value) :
  frames w !! fid = Some f → f_locals f !! x = Some v →
  n ∈ ["STORE_FAST"; "STORE_NAME"] → CaptureLocals.locals o = Some d →
  CaptureLocals.capture_store fid (EInstr (Instr n (VStr x))) (St o w) =
    (Ok tt, St (CaptureLocals.set_locals (Some (dest_setitem x v d)) o) w).
Proof.
  intros Hf Hv Hn Hd. unfold CaptureLocals.capture_store. simpl.
  rewrite bool_decide_true by done. munfold. rewrite Hf. simpl. rewrite Hv. simpl.
  by rewrite Hd.
Qed.

Lemma capture_store_other {D} `{DestType D} (fid : nat) (s : st (CaptureLocals.obj D))
    (n : string) (a : value) :
  n ∉ ["STORE_FAST"; "STORE_NAME"] →
  CaptureLocals.capture_store fid (EInstr (Instr n a)) s = (Ok tt, s).
Proof.
  intros Hn. unfold CaptureLocals.capture_store. simpl.
  by rewrite bool_decide_false by done.
Qed.

(** The loop of [CaptureLocals.__exit__] over a block of simple
    assignments: every store assigns the value the frame holds to the name
    stored, in the order of the stores. *)
Lemma capture_loop {D} `{DestType D} (bc : list elem) (fid : nat) (f : frame)
    (w : world) (o : CaptureLocals.obj D) (d : D) :
  frames w !! fid = Some f → simple_block f bc → CaptureLocals.locals o = Some d →
  for_each bc (CaptureLocals.capture_store fid) (St o w) =
    (Ok tt,
     St (CaptureLocals.set_locals
           (Some (foldl (λ d x, dest_setitem x (default VNone (f_locals f !! x)) d)
                        d (stored_names bc))) o) w).
Proof.
  intros Hf. revert o d. induction bc as [|b rest IH]; intros o d Hblock Hd.
  - simpl. by rewrite set_locals_id.
  - apply Forall_cons in Hblock as [(i & -> & Hstore) Hrest].
    destruct i as [n a]. simpl in Hstore.
    cbn [for_each]. unfold mbind, M_bind.
    destruct (decide (n ∈ ["STORE_FAST"; "STORE_NAME"])) as [Hn|Hn].
    + destruct (Hstore Hn) as (x & -> & v & Hv).
      rewrite (capture_store_store fid f w o d n x v) by done.
      rewrite (IH _ (dest_setitem x v d)); [|done..].
      unfold stored_names. simpl. rewrite bool_decide_true by done. simpl.
      by rewrite Hv.
    + rewrite capture_store_other by done.
      rewrite (IH o d); [|done..]. unfold stored_names. simpl.
      destruct a; try done. by rewrite bool_decide_false.
Qed.

Lemma foldl_insert_lookup (val : string → value) (names : list string)
    (d : dict) (x : string) :
  foldl (λ d x, <[x := val x]> d) d names !! x =
    if bool_decide (x ∈ names) then Some (val x) else d !! x.
Proof.
  revert d. induction names as [|y names IH]; intros d; simpl; [done|].
  rewrite IH. destruct (decide (x = y)) as [->|Hne].
  - rewrite lookup_insert_eq.
    rewrite (bool_decide_true (y ∈ y :: names)) by left.
    by case_bool_decide.
  - rewrite lookup_insert_ne by done.
    case_bool_decide as Hin.
    + rewrite bool_decide_true; [done|by right].
    + rewrite bool_decide_false; [done|]. by intros [->|?]%elem_of_cons.
Qed.

Lemma od_setitem_old (val : string → value) (ks : list string) (x : string) :
  x ∈ ks → od_setitem x (val x) (items val ks) = items val ks.
Proof.
  induction ks as [|k ks IH]; intros Hx; [by apply not_elem_of_nil in Hx|].
  simpl. case_decide as Hk; [by subst|].
  f_equal. apply IH. apply elem_of_cons in Hx as [->|]; done.
Qed.

Lemma od_setitem_new (val : string → value) (ks : list string) (x : string) :
  x ∉ ks → od_setitem x (val x) (items val ks) = items val (ks ++ [x]).
Proof.
  induction ks as [|k ks IH]; intros Hx; [done|].
  simpl. apply not_elem_of_cons in Hx as [Hne Hx].
  case_decide; [by subst|]. f_equal. by apply IH.
Qed.

Lemma foldl_od_setitem_from (val : string → value) (names ks : list string) :
  foldl (λ d x, od_setitem x (val x) d) (items val ks) names =
    items val (ks ++ filter (λ y, y ∉ ks) (first_assigned names)).
Proof.
  revert ks. induction names as [|x names IH]; intros ks; simpl.
  - by rewrite app_nil_r.
  - destruct (decide (x ∈ ks)) as [Hin|Hnin].
    + rewrite od_setitem_old, IH by done. do 2 f_equal.
      rewrite filter_cons_False by (by intros ?).
      rewrite list_filter_filter. apply list_filter_iff. intros y.
      split; [|by intros [? _]]. intros Hy. split; [done|]. by intros ->.
    + rewrite od_setitem_new, IH by done. rewrite <- app_assoc. simpl.
      do 2 f_equal. rewrite filter_cons_True by done. f_equal.
      rewrite list_filter_filter. apply list_filter_iff. intros y.
      rewrite not_elem_of_app, not_elem_of_cons. split.
      * by intros [? [? _]].
      * intros [? ?]. split; [done|]. split; [done|]. apply not_elem_of_nil.
Qed.

(** An [OrderedDict] filled by the loop lists the names in the order they
    were first assigned. *)
Lemma foldl_od_setitem (val : string → value) (names : list string) :
  foldl (λ d x, od_setitem x (val x) d) [] names = items val (first_assigned names).
Proof.
  change (@nil (string * value)) with (items val []).
  rewrite (foldl_od_setitem_from val names []). simpl. f_equal.
  induction (first_assigned names) as [|y l IH]; [done|].
  rewrite filter_cons_True by apply not_elem_of_nil. by f_equal.
Qed.

End capture_locals.

(** X23, C5: when the captured body of a block is a sequence of simple
    assignments, [CaptureLocals.__exit__] leaves in [locals] exactly the
    names that the instructions [STORE_FAST] and [STORE_NAME] of the body
    store, each with the value the context frame binds to it at that time:
    as a mapping for [dict], and as the list of pairs in the order of first
    assignment for [OrderedDict].  In particular the block [x = 7; y = 8]
    gives [{"x": 7, "y": 8}], and the pairs [("x", 7)], [("y", 8)] in this
    order. *)
Theorem CaptureLocals_captures_stored_names :
  (∀ (H : Host) (cb0 cb1 : CaptureBytecode.obj) (w w1 : world)
     (exc_type exc_value traceback : value) (retcode : bool)
     (bc : Bytecode) (fid : nat) (f : frame),
     CaptureBytecode.__exit__ exc_type exc_value traceback (St cb0 w)
       = (Ok retcode, St cb1 w1) →
     bytecode cb1 = Some bc →
     WithHack._WithHack__frame (wh cb1) = Some fid →
     frames w1 !! fid = Some f →
     simple_block f (elems bc) →
     (∀ l0 : option dict, ∃ d : dict,
        CaptureLocals.__exit__ exc_type exc_value traceback
            (St (CaptureLocals.Obj cb0 l0) w)
          = (Ok retcode, St (CaptureLocals.Obj cb1 (Some d)) w1) ∧
        ∀ x, d !! x = if bool_decide (x ∈ stored_names (elems bc))
                      then f_locals f !! x else None) ∧
     (∀ l0 : option OrderedDict, ∃ l : OrderedDict,
        CaptureLocals.__exit__ exc_type exc_value traceback
            (St (CaptureLocals.Obj cb0 l0) w)
          = (Ok retcode, St (CaptureLocals.Obj cb1 (Some l)) w1) ∧
        l.*1 = first_assigned (stored_names (elems bc)) ∧
        ∀ x v, (x, v) ∈ l → f_locals f !! x = Some v)) ∧
  (let '(r, s) := CaptureLocals.__exit__ (H0 := demo_host) (D := dict) VNone VNone VNone
                    (St (CaptureLocals.Obj demo_capture None) demo_world) in
   r = Ok false ∧
   CaptureLocals.locals (self s) = Some {[ "x" := VInt 7; "y" := VInt 8 ]}) ∧
  (let '(r, s) := CaptureLocals.__exit__ (H0 := demo_host) (D := OrderedDict)
                    VNone VNone VNone
                    (St (CaptureLocals.Obj demo_capture None) demo_world) in
   r = Ok false ∧
   CaptureLocals.locals (self s) = Some [("x", VInt 7); ("y", VInt 8)]).
Proof.
  split; [|split; by vm_compute].
  intros H cb0 cb1 w w1 exc_type exc_value traceback retcode bc fid f
         Hexit Hbc Hcache Hf Hblock.
  assert (∀ D (HD : DestType D) (l0 : option D),
            CaptureLocals.__exit__ exc_type exc_value traceback
                (St (CaptureLocals.Obj cb0 l0) w)
            = (Ok retcode,
               St (CaptureLocals.Obj cb1
                     (Some (foldl (λ d x, dest_setitem x (default VNone (f_locals f !! x)) d)
                                  dest_type (stored_names (elems bc))))) w1)) as Hgen.
  { intros D HD l0. unfold CaptureLocals.__exit__. munfold. rewrite Hexit. simpl.
    rewrite (_get_context_frame_cached _ _ fid Hcache). simpl. rewrite Hbc.
    rewrite (capture_loop (elems bc) fid f w1 _ dest_type Hf Hblock); [|done].
    destruct cb1; simpl in *. by subst. }
  split.
  - intros l0. eexists. split; [apply Hgen|]. intros x. simpl.
    rewrite (foldl_insert_lookup (λ x, default VNone (f_locals f !! x))).
    rewrite lookup_empty. case_bool_decide as Hx; [|done].
    by destruct (stored_names_bound f _ x Hblock Hx) as [v ->].
  - intros l0. eexists. split; [apply Hgen|]. simpl.
    rewrite (foldl_od_setitem (λ x, default VNone (f_locals f !! x))).
    split.
    + unfold items. rewrite <- list_fmap_compose. apply list_fmap_id.
    + intros x v Hxv. unfold items in Hxv.
      apply list_elem_of_fmap in Hxv as (y & [= -> ->] & Hy).
      assert (y ∈ stored_names (elems bc)) as Hin.
      { clear -Hy. revert y Hy. induction (stored_names (elems bc)) as [|z l IH];
          intros y Hy; [by apply not_elem_of_nil in Hy|].
        simpl in Hy. apply elem_of_cons in Hy as [->|Hy]; [left|].
        apply list_elem_of_filter in Hy as [_ Hy]. right. by apply IH. }
      by destruct (stored_names_bound f _ y Hblock Hin) as [v ->].
Qed.

Lemma demo_body_simple : simple_block demo_frame (elems demo_body).
Proof.
  unfold simple_block.
  repeat (apply Forall_cons; split;
    [eexists; split; [reflexivity|]; simpl; intros Hn;
     first [ by (apply (bool_decide_pack _) in Hn; vm_compute in Hn)
           | eexists; split; [reflexivity|]; by eexists ] |]).
  apply Forall_nil_2.
Qed.

Lemma CaptureLocals_captures_stored_names_witness :
  (∃ d : dict,
     CaptureLocals.__exit__ (H0 := demo_host) VNone VNone VNone
         (St (CaptureLocals.Obj demo_capture None) demo_world)
       = (Ok false, St (CaptureLocals.Obj demo_captured (Some d)) demo_world) ∧
     d !! "x" = Some (VInt 7) ∧ d !! "y" = Some (VInt 8) ∧ d !! "f" = None) ∧
  (∃ l : OrderedDict,
     CaptureLocals.__exit__ (H0 := demo_host) VNone VNone VNone
         (St (CaptureLocals.Obj demo_capture None) demo_world)
       = (Ok false, St (CaptureLocals.Obj demo_captured (Some l)) demo_world) ∧
     l.*1 = ["x"; "y"]).
Proof.
  destruct (proj1 CaptureLocals_captures_stored_names demo_host
              demo_capture demo_captured demo_world demo_world VNone VNone VNone false
              demo_body 0 demo_frame)
    as [Hdict Hod];
    [by vm_compute | reflexivity | reflexivity | reflexivity | apply demo_body_simple |].
  split.
  - destruct (Hdict None) as (d & Hexit & Hd). exists d. split; [exact Hexit|].
    rewrite !Hd. clear. vm_compute. by repeat split.
  - destruct (Hod None) as (l & Hexit & Hkeys & _). exists l. split; [exact Hexit|].
    exact Hkeys.
Defined.

(** ** Forwarding captured locals as keyword arguments *)

(** X24, C10: once the locals of the block are captured, [xkwargs.__exit__]
    calls the wrapped callable, once, with the positional arguments of the
    constructor and with keyword arguments in which every captured name
    carries the captured value, also when the constructor was given a
    keyword of the same name, and every other keyword of the constructor
    carries the value given to the constructor; the value returned is then
    replayed through the as-clause. *)
Theorem xkwargs_locals_override_kwds `{Host} (o : xkwargs.obj) (w w1 : world)
    (cl1 : CaptureLocals.obj dict) (locals : dict)
    (exc_type exc_value traceback : value) (retcode : bool) :
  CaptureLocals.__exit__ exc_type exc_value traceback (St (xkwargs.cl o) w)
    = (Ok retcode, St cl1 w1) →
  CaptureLocals.locals cl1 = Some locals →
  ∃ kwds : dict,
    xkwargs.__exit__ exc_type exc_value traceback (St o w) =
      (retval ← in_world (py_call (xkwargs._xkwargs__func o)
                                  (xkwargs._xkwargs__args o) kwds);
       super (super (CaptureBytecode._run_as_clause retval));;
       ret retcode)
        (St (xkwargs.Obj cl1 (xkwargs._xkwargs__func o) (xkwargs._xkwargs__args o)
                         (xkwargs._xkwargs__kwds o)) w1) ∧
    (∀ x v, locals !! x = Some v → kwds !! x = Some v) ∧
    (∀ x, locals !! x = None → kwds !! x = xkwargs._xkwargs__kwds o !! x).
Proof.
  intros Hexit Hlocals.
  exists (dict_update (xkwargs._xkwargs__kwds o) locals). split; [|split].
  - unfold xkwargs.__exit__. munfold. rewrite Hexit. simpl. by rewrite Hlocals.
  - intros x v Hx. by rewrite dict_update_lookup, Hx.
  - intros x Hx. by rewrite dict_update_lookup, Hx.
Qed.

Lemma xkwargs_locals_override_kwds_witness :
  ∃ kwds : dict,
    fst (xkwargs.__exit__ (H := demo_host) VNone VNone VNone (St demo_xkwargs demo_world))
      = Ok false ∧
    kwds !! "x" = Some (VInt 7) ∧ kwds !! "y" = Some (VInt 8) ∧
    kwds !! "b" = Some (VInt 2) ∧
    xkwargs.__exit__ (H := demo_host) VNone VNone VNone (St demo_xkwargs demo_world) =
      (retval ← in_world (py_call (VObj 20) [VInt 1] kwds);
       super (super (CaptureBytecode._run_as_clause retval));;
       ret false)
        (St (xkwargs.Obj (CaptureLocals.Obj demo_captured
                            (Some {[ "x" := VInt 7; "y" := VInt 8 ]}))
                         (VObj 20) [VInt 1] {[ "b" := VInt 2; "x" := VInt 0 ]})
            demo_world).
Proof.
  destruct (xkwargs_locals_override_kwds (H := demo_host) demo_xkwargs
              demo_world demo_world
              (CaptureLocals.Obj demo_captured (Some {[ "x" := VInt 7; "y" := VInt 8 ]}))
              {[ "x" := VInt 7; "y" := VInt 8 ]} VNone VNone VNone false)
    as (kwds & Hexit & Hover & Hpass); [by vm_compute | reflexivity |].
  exists kwds. split; [by vm_compute|].
  split; [by apply Hover|]. split; [by apply Hover|].
  split; [by rewrite Hpass|]. exact Hexit.
Defined.

(** ** Injecting trace functions *)

(** In a consistent world [inject_trace_func] returns; afterwards [func] is
    the last function registered for the frame, the trace function of the
    frame is [_invoke_trace_funcs], tracing is switched on and the world is
    consistent again.  Only the trace function of the frame has changed in
    the frames. *)
Lemma inject_trace_func_ok (fid : nat) (f : frame) (func : injected) (w : world) :
  frames w !! fid = Some f →
  tracing_consistent w →
  ∃ w' funcs,
    inject_trace_func fid func w = (Ok tt, w') ∧
    _injected_trace_funcs w' !! fid = Some (funcs ++ [func]) ∧
    frames w' = <[fid := set_f_trace (Some F_invoke_trace_funcs) f]> (frames w) ∧
    is_Some (_orig_trace_funcs w' !! fid) ∧
    sys_trace w' ≠ None ∧
    call_stack w' = call_stack w ∧
    tracing_consistent w'.
Proof.
  intros Hf [Hon Htab]. unfold inject_trace_func. munfold. rewrite Hf. simpl.
  destruct (decide (f_trace f = Some F_invoke_trace_funcs)) as [Ht|Ht]; simpl.
  - destruct (Htab fid f Hf Ht) as [[funcs Hfuncs] [t Horig]].
    rewrite Hfuncs. simpl. eexists _, funcs. split; [reflexivity|]. simpl.
    split; [by rewrite lookup_insert_eq|].
    split; [symmetry; apply insert_id; rewrite Hf; f_equal; by destruct f; simpl in *; subst|].
    split; [by eexists|].
    assert (_orig_trace_funcs w ≠ ∅) as Hne
      by (intros Hemp; by rewrite Hemp, lookup_empty in Horig).
    split; [by apply Hon|]. split; [done|].
    split; [done|]. simpl. intros fid' f' Hf' Ht'.
    destruct (Htab fid' f' Hf' Ht') as [Hi Ho]. split; [|done].
    destruct (decide (fid = fid')) as [->|?];
      [rewrite lookup_insert_eq|rewrite lookup_insert_ne by done]; done.
  - set (orig' := <[fid := f_trace f]> (_orig_trace_funcs w)).
    assert (orig' ≠ ∅) as Hne by apply insert_non_empty.
    assert (∀ fid' f',
              <[fid := set_f_trace (Some F_invoke_trace_funcs) f]> (frames w) !! fid'
                = Some f' →
              f_trace f' = Some F_invoke_trace_funcs →
              is_Some (<[fid := [func]]> (<[fid := []]> (_injected_trace_funcs w)) !! fid') ∧
              is_Some (orig' !! fid')) as Htab'.
    { intros fid' f' Hf' Ht'. unfold orig'.
      destruct (decide (fid = fid')) as [->|Hne'].
      - rewrite !lookup_insert_eq. done.
      - rewrite !lookup_insert_ne by done. rewrite lookup_insert_ne in Hf' by done.
        apply (Htab fid' f' Hf' Ht'). }
    destruct (decide (size orig' = 1)) as [Hsize|Hsize]; simpl.
    + destruct (sys_trace w) as [t|] eqn:Hsys; simpl;
        rewrite lookup_insert_eq; simpl;
        (eexists _, []; split; [reflexivity|]; simpl;
         split; [by rewrite lookup_insert_eq|]; split; [done|];
         split; [unfold orig'; rewrite lookup_insert_eq; by eexists|];
         split; [done|]; split; [done|]; split; [done|]; exact Htab').
    + rewrite lookup_insert_eq. simpl.
      assert (sys_trace w ≠ None) as Hsys.
      { apply Hon. intros Hemp. apply Hsize. unfold orig'. rewrite Hemp.
        by rewrite insert_empty, map_size_singleton. }
      eexists _, []; split; [reflexivity|]; simpl.
      split; [by rewrite lookup_insert_eq|]. split; [done|].
      split; [unfold orig'; rewrite lookup_insert_eq; by eexists|].
      split; [done|]. split; [done|]. split; [done|]. exact Htab'.
Qed.

(** ** Replaying the as-clause *)

Lemma any_store_fast_found (clause : list elem) :
  Forall (λ b, is_instr b = true) clause →
  (∃ a, EInstr (Instr "STORE_FAST" a) ∈ clause) →
  any_store_fast clause = Ok true.
Proof.
  intros Hall [a Hin]. induction Hall as [|b rest Hb Hrest IH];
    [by apply not_elem_of_nil in Hin|].
  destruct b as [[n a']|l|n]; try done. simpl.
  apply elem_of_cons in Hin as [[= <- <-]|Hin]; [done|].
  case_bool_decide; [done|]. by apply IH.
Qed.

(** The closure injected for a simple local store binds the name in the
    locals of the frame. *)
Lemma call_injected_update_locals (fid : nat) (x : string) (v : value)
    (w : world) (f : frame) :
  frames w !! fid = Some f →
  ∃ w', call_injected (F_update_locals {[ x := v ]}) fid w = (Ok tt, w') ∧
        frames w' = <[fid := set_f_locals (<[x := v]> (f_locals f)) f]> (frames w).
Proof.
  intros Hf. unfold call_injected. munfold. rewrite Hf. simpl.
  eexists. split; [reflexivity|]. simpl. by rewrite dict_update_singleton.
Qed.

(** X25, C4: on an as-clause that is the single instruction [STORE_FAST name],
    [_run_as_clause(value)] registers for the context frame the closure that
    updates its locals with [{name: value}] and returns; nothing of the host
    takes part, so no code is built or executed.  On an as-clause that is
    the single instruction [POP_TOP] it returns and changes nothing.  On
    every other as-clause that holds a [STORE_FAST] instruction it raises
    [NotImplementedError] and changes nothing. *)
Theorem _run_as_clause_cases :
  (∀ (H : Host) (o : CaptureBytecode.obj) (w : world) (clause : Bytecode)
     (x : string) (v : value) (fid : nat) (f : frame),
     _as_clause o = Some clause →
     elems clause = [EInstr (Instr "STORE_FAST" (VStr x))] →
     fst (WithHack._get_context_frame (St (wh o) w)) = Ok fid →
     frames w !! fid = Some f →
     tracing_consistent w →
     ∃ o' w' funcs,
       _run_as_clause v (St o w) = (Ok tt, St o' w') ∧
       _injected_trace_funcs w' !! fid = Some (funcs ++ [F_update_locals {[ x := v ]}]) ∧
       (∀ H' : Host, @_run_as_clause H' v (St o w) = (Ok tt, St o' w')) ∧
       (∀ w0 f0, frames w0 !! fid = Some f0 →
          ∃ w0', call_injected (F_update_locals {[ x := v ]}) fid w0 = (Ok tt, w0') ∧
                 f_locals <$> frames w0' !! fid = Some (<[x := v]> (f_locals f0)))) ∧
  (∀ (H : Host) (o : CaptureBytecode.obj) (w : world) (clause : Bytecode)
     (a v : value),
     _as_clause o = Some clause →
     elems clause = [EInstr (Instr "POP_TOP" a)] →
     _run_as_clause v (St o w) = (Ok tt, St o w)) ∧
  (∀ (H : Host) (o : CaptureBytecode.obj) (w : world) (clause : Bytecode) (v : value),
     _as_clause o = Some clause →
     length (elems clause) ≠ 1 →
     Forall (λ b, is_instr b = true) (elems clause) →
     (∃ a, EInstr (Instr "STORE_FAST" a) ∈ elems clause) →
     _run_as_clause v (St o w)
       = (Raise (Exn NotImplementedError "Cannot handle this as clause"), St o w)).
Proof.
  split; [|split].
  - intros H o w clause x v fid f Has Hclause Hframe Hf Hcons.
    apply _get_context_frame_ok in Hframe.
    destruct (inject_trace_func_ok fid f (F_update_locals {[ x := v ]}) w Hf Hcons)
      as (w' & funcs & Hinj & Hfuncs & _).
    assert (∀ H' : Host, @_run_as_clause H' v (St o w) =
              (Ok tt, St (with_base (WithHack.set_frame_cache fid (wh o)) o) w')) as Hrun.
    { intros H'. unfold _run_as_clause. munfold. rewrite Has, Hclause. simpl.
      unfold WithHack._set_context_locals. munfold. rewrite Hframe. simpl.
      rewrite Hinj. simpl. by rewrite Has. }
    eexists _, w', funcs. split; [apply Hrun|]. split; [done|]. split; [apply Hrun|].
    intros w0 f0 Hf0.
    destruct (call_injected_update_locals fid x v w0 f0 Hf0) as (w0' & Hcall & Hfr).
    exists w0'. split; [done|]. by rewrite Hfr, lookup_insert_eq.
  - intros H o w clause a v Has Hclause.
    unfold _run_as_clause. munfold. rewrite Has, Hclause. simpl. by destruct o.
  - intros H o w clause v Has Hlen Hall Hstore.
    unfold _run_as_clause. munfold. rewrite Has.
    destruct (elems clause) as [|first others] eqn:Hclause.
    { destruct Hstore as [a Hin]. by apply not_elem_of_nil in Hin. }
    rewrite decide_False by done.
    rewrite any_store_fast_found by done. simpl. by destruct o.
Qed.

Lemma demo_world_consistent : tracing_consistent demo_world.
Proof.
  split; [done|]. intros fid f Hf Ht. simpl in Hf.
  apply lookup_singleton_Some in Hf as [_ <-]. done.
Qed.

Lemma _run_as_clause_cases_witness :
  (∃ o' w' funcs,
     _run_as_clause (H := demo_host) (VInt 10) (St demo_captured demo_world)
       = (Ok tt, St o' w') ∧
     _injected_trace_funcs w' !! 0 = Some (funcs ++ [F_update_locals {[ "f" := VInt 10 ]}])) ∧
  _run_as_clause (H := demo_host) (VInt 10) (St demo_discard demo_world)
    = (Ok tt, St demo_discard demo_world) ∧
  _run_as_clause (H := demo_host) (VInt 10) (St demo_unpack demo_world)
    = (Raise (Exn NotImplementedError "Cannot handle this as clause"),
       St demo_unpack demo_world).
Proof.
  destruct _run_as_clause_cases as (Hstore & Hpop & Hgeneral).
  split; [|split].
  - destruct (Hstore demo_host demo_captured demo_world demo_as_clause "f" (VInt 10)
                0 demo_frame)
      as (o' & w' & funcs & Hrun & Hfuncs & _);
      [reflexivity | reflexivity | reflexivity | reflexivity
      | apply demo_world_consistent |].
    by exists o', w', funcs.
  - by apply (Hpop demo_host demo_discard demo_world
                (set_elems [EInstr (Instr "POP_TOP" UNSET)] demo_bytecode) UNSET).
  - apply (Hgeneral demo_host demo_unpack demo_world
             (set_elems [EInstr (Instr "UNPACK_SEQUENCE" (VInt 2));
                         EInstr (Instr "STORE_FAST" (VStr "a"))] demo_bytecode)).
    + reflexivity.
    + simpl. lia.
    + by repeat constructor.
    + exists (VStr "a"). simpl. right. left.
Defined.

(** ** Skipping the block *)


Lemma _disable_tracing_ok (w : world) :
  _disable_tracing w =
    (Ok tt, match _orig_sys_trace w with
            | None => set_sys_trace None w
            | Some _ => w
            end).
Proof. unfold _disable_tracing. munfold. by destruct (_orig_sys_trace w). Qed.

Lemma _enable_tracing_ok (w : world) :
  _enable_tracing w =
    (Ok tt, match sys_trace w with
            | None => set_sys_trace (Some F_dummy_sys_trace)
                                    (set_orig_sys_trace (sys_trace w) w)
            | Some _ => set_orig_sys_trace (sys_trace w) w
            end).
Proof. unfold _enable_tracing. munfold. by destruct (sys_trace w). Qed.




(** * Further properties of the code *)

(** ** The code extractor, at its edges *)

Section extract_code_edges.

Context `{Host}.

(** X1: When the abstract form of the code does not have one instruction for
    each concrete one, the assertion of [extract_code] fails, whatever the
    offsets. *)
Theorem extract_code_assertion (fr : frame) (start end_ : option Z) :
  length (instrs_of (elems (to_bytecode (f_code fr)))) ≠ length (f_code fr) →
  extract_code fr start end_ = Raise (Exn AssertionError "").
Proof.
  intros Hne. unfold extract_code.
  destruct (concrete_indices _ _ _ _ _ _) as [start_c end_c].
  rewrite bytecode_indices_find. simpl. by rewrite decide_False.
Qed.

(** X2: An offset that is the first byte of an instruction other than the
    first has the index of the instruction before it, and an offset at or
    before the start of the code has index 0. *)
Theorem offset_index_boundary (code : list cinstr) :
  Forall (λ c, 0 < c_size c)%Z code →
  (∀ pre c post, code = pre ++ c :: post →
     offset_index code (len_co_code (pre ++ [c])) = length pre) ∧
  (∀ o, (o ≤ 0)%Z → offset_index code o = 0).
Proof.
  intros Hpos. split.
  - intros pre c post ->. rewrite offset_index_count.
    by rewrite <- (count_before_boundary pre c post 0).
  - intros o Ho. rewrite offset_index_count. by apply count_before_past.
Qed.

(** X3: Called without offsets on a non-empty code, [extract_code] returns the
    instructions of the code without the last one: the default [end], the
    length of the code, has the index of the last instruction, and the
    slice stops before it. *)
Theorem extract_code_default_drops_last (fr : frame) :
  f_code fr ≠ [] →
  length (instrs_of (elems (to_bytecode (f_code fr)))) = length (f_code fr) →
  Forall (λ c, 0 < c_size c)%Z (f_code fr) →
  ∃ bc, extract_code fr None None = Ok bc ∧
        instrs_of (elems bc) =
          take (length (f_code fr) - 1) (instrs_of (elems (to_bytecode (f_code fr)))).
Proof.
  intros Hne Hone Hpos.
  set (code := f_code fr) in *. set (bc := elems (to_bytecode code)) in *.
  assert (offset_index code 0 = 0) as Hs
    by (rewrite offset_index_count; by apply count_before_past).
  assert (offset_index code (len_co_code code) = length code - 1) as He.
  { destruct (List.exists_last Hne) as (pre & c & Hcode).
    rewrite offset_index_count.
    pose proof (count_before_boundary pre c [] 0) as Hb.
    rewrite <- Hcode in Hb. specialize (Hb Hpos). rewrite Z.add_0_l in Hb.
    rewrite Hb, Hcode, length_app. simpl. lia. }
  unfold extract_code. fold code. simpl.
  rewrite concrete_indices_count, <- !offset_index_count, Hs, He.
  fold bc. rewrite bytecode_indices_find. simpl. rewrite Hone.
  rewrite decide_True by done. eexists. split; [reflexivity|]. simpl.
  assert (length code ≠ 0) as Hlen by (by destruct code).
  destruct (find_index_position 0 bc 0 0 None ltac:(lia)) as (ps & -> & Hps & _).
  destruct (find_index_position (length code - 1) bc 0 0 None ltac:(lia))
    as (pe & -> & Hpe & ins & Hins).
  unfold py_slice. simpl. rewrite Nat.sub_0_r in Hps, Hpe.
  rewrite (instrs_of_slice bc ps pe 0 (length code - 1) ins) by (done || lia).
  by rewrite drop_0, Nat.sub_0_r.
Qed.

End extract_code_edges.

Lemma extract_code_assertion_witness :
  extract_code (H := nop_dropping_host) nop_frame (Some 0%Z) (Some 4%Z)
    = Raise (Exn AssertionError "").
Proof.
  apply (extract_code_assertion (H := nop_dropping_host) nop_frame). vm_compute. lia.
Defined.

Lemma offset_index_boundary_witness :
  offset_index demo_code 4 = 1 ∧ offset_index demo_code 0 = 0.
Proof.
  assert (Forall (λ c, 0 < c_size c)%Z demo_code) as Hpos
    by (apply (bool_decide_unpack _); vm_compute; reflexivity).
  destruct (offset_index_boundary demo_code Hpos) as [Hb H0].
  split.
  - exact (Hb [CInstr "LOAD_GLOBAL" 0 2] (CInstr "CALL_FUNCTION" 0 2)
              (drop 2 demo_code) eq_refl).
  - apply H0. lia.
Defined.

Lemma extract_code_default_drops_last_witness :
  ∃ bc, extract_code (H := demo_host) demo_frame None None = Ok bc ∧
        instrs_of (elems bc) = take 14 (instrs_of (elems demo_bytecode)).
Proof.
  destruct (extract_code_default_drops_last (H := demo_host) demo_frame)
    as (bc & Hbc & Hins).
  - discriminate.
  - reflexivity.
  - apply (bool_decide_unpack _); vm_compute; reflexivity.
  - exists bc. split; [exact Hbc|exact Hins].
Defined.

(** ** Cutting the block out of the extracted code *)

Lemma strip_until_found (marker : string) (pre : list elem) (a : value)
    (rest : list elem) :
  Forall (λ b, ¬ named marker b) pre →
  strip_until marker (pre ++ EInstr (Instr marker a) :: rest)
    = Ok (EInstr (Instr marker a) :: rest).
Proof.
  induction 1 as [|b pre Hb Hpre IH]; simpl.
  - by rewrite bool_decide_false by (by intros ?).
  - destruct b as [[n a']|l|n]; simpl; [|done..].
    rewrite bool_decide_true; [done|]. intros ->. apply Hb. by exists a'.
Qed.

Lemma strip_until_missing (marker : string) (l : list elem) :
  Forall (λ b, ¬ named marker b) l →
  strip_until marker l = Raise (Exn IndexError "list index out of range").
Proof.
  induction 1 as [|b l Hb Hl IH]; simpl; [done|].
  destruct b as [[n a']|lbl|n]; simpl; [|done..].
  rewrite bool_decide_true; [done|]. intros ->. apply Hb. by exists a'.
Qed.

Lemma Forall_rev_elem (P : elem → Prop) (l : list elem) :
  Forall P l → Forall P (rev l).
Proof.
  rewrite !Forall_forall. intros Hl x Hx. apply Hl.
  apply list_elem_of_In, in_rev. by apply list_elem_of_In.
Qed.

Lemma strip_back_until_found (marker : string) (l : list elem) (a : value)
    (post : list elem) :
  Forall (λ b, ¬ named marker b) post →
  strip_back_until marker (l ++ EInstr (Instr marker a) :: post)
    = Ok (l ++ [EInstr (Instr marker a)]).
Proof.
  intros Hpost. unfold strip_back_until.
  rewrite rev_app_distr. simpl. rewrite <- app_assoc. simpl.
  rewrite strip_until_found by (by apply Forall_rev_elem).
  f_equal. simpl. by rewrite rev_involutive.
Qed.

Lemma strip_back_until_missing (marker : string) (l : list elem) :
  Forall (λ b, ¬ named marker b) l →
  strip_back_until marker l = Raise (Exn IndexError "list index out of range").
Proof.
  intros Hl. unfold strip_back_until.
  by rewrite strip_until_missing by (by apply Forall_rev_elem).
Qed.

Lemma collect_as_clause_found (clause : list elem) (s : elem) (rest : list elem)
    (i : nat) :
  Forall inside_as_clause clause → ends_as_clause s →
  collect_as_clause (clause ++ s :: rest) i = Ok (clause ++ [s], i + length clause).
Proof.
  intros Hclause (si & -> & Hs). revert i.
  induction Hclause as [|b clause (bi & -> & Hstore & Hpop) _ IH]; intros i; simpl.
  - destruct Hs as [-> | ->]; [|rewrite orb_true_r]; do 2 f_equal; lia.
  - rewrite Hstore, bool_decide_false by done. simpl. rewrite IH.
    do 2 f_equal. lia.
Qed.

Lemma collect_as_clause_label (clause : list elem) (b : elem) (rest : list elem)
    (i : nat) :
  Forall inside_as_clause clause → is_instr b = false →
  collect_as_clause (clause ++ b :: rest) i = Raise (Exn AttributeError "name").
Proof.
  intros Hclause Hb. revert i.
  induction Hclause as [|c clause (ci & -> & Hstore & Hpop) _ IH]; intros i; simpl.
  - by destruct b.
  - rewrite Hstore, bool_decide_false by done. simpl. by rewrite IH.
Qed.

Lemma match_nonempty {A B} (l : list A) (X Y : B) :
  l ≠ [] → match l with [] => X | _ :: _ => Y end = Y.
Proof. by destruct l. Qed.

Lemma drop_past_item {A} (l : list A) (x : A) (k : list A) :
  drop (length l + 1) (l ++ x :: k) = k.
Proof. induction l as [|y l IH]; [done|]. simpl. apply IH. Qed.

Section capture_bytecode.

Context `{Host}.

(** X4: When the code extracted for the block is, in this order, instructions
    other than [SETUP_WITH], the [SETUP_WITH] of the block, an as-clause
    that ends with its first store or [POP_TOP], any body, a [POP_BLOCK]
    and elements other than [POP_BLOCK], then [CaptureBytecode.__exit__]
    returns with [bytecode] set to the body and [_as_clause] to the
    as-clause, and changes nothing else but the cached frame.  The body may
    itself hold [POP_BLOCK] and [SETUP_WITH] instructions. *)
Theorem CaptureBytecode_exit_cuts (o : CaptureBytecode.obj) (w : world)
    (fid : nat) (f : frame) (bc : Bytecode)
    (pre clause body post : list elem) (s : elem) (a a' : value)
    (exc_type exc_value traceback : value) :
  fst (WithHack._get_context_frame (St (wh o) w)) = Ok fid →
  frames w !! fid = Some f →
  extract_code f (_CaptureBytecode__bc_start o) (Some (f_lasti f)) = Ok bc →
  elems bc = pre ++ EInstr (Instr "SETUP_WITH" a) :: clause ++ s :: body
                 ++ EInstr (Instr "POP_BLOCK" a') :: post →
  Forall (λ b, ¬ named "SETUP_WITH" b) pre →
  Forall inside_as_clause clause → ends_as_clause s →
  Forall (λ b, ¬ named "POP_BLOCK" b) post →
  CaptureBytecode.__exit__ exc_type exc_value traceback (St o w) =
    (Ok (bool_decide (exc_type = VClass _ExitContext)),
     St (CaptureBytecode.Obj (WithHack.set_frame_cache fid (wh o))
                             (_CaptureBytecode__bc_start o)
                             (Some (set_elems body bc))
                             (Some (set_elems (clause ++ [s]) bc))) w).
Proof.
  intros Hframe Hf Hbc Helems Hpre Hclause Hs Hpost.
  apply _get_context_frame_ok in Hframe.
  unfold CaptureBytecode.__exit__. munfold. rewrite Hframe. simpl. rewrite Hf. simpl.
  rewrite Hbc. simpl. rewrite Helems, strip_until_found by done. simpl.
  rewrite !drop_0.
  rewrite (match_nonempty (clause ++ _)) by (by destruct clause).
  rewrite (collect_as_clause_found clause s _ 0 Hclause Hs).
  cbn -[strip_back_until drop rev].
  rewrite drop_past_item.
  cbn -[strip_back_until rev].
  rewrite strip_back_until_found by done.
  cbn -[rev]. rewrite rev_app_distr.
  change (rev [EInstr (Instr "POP_BLOCK" a')] ++ rev body)
    with (EInstr (Instr "POP_BLOCK" a') :: rev body).
  cbn -[rev]. rewrite drop_0, rev_involutive.
  unfold WithHack.__exit__. by case_decide; case_bool_decide.
Qed.

(** X5: What [CaptureBytecode.__exit__] does with code that lacks a marker.
    Without a [SETUP_WITH] instruction it raises [IndexError] and sets
    neither attribute.  With nothing after [SETUP_WITH] the loop variable
    is unbound and it raises [UnboundLocalError].  A label or line marker
    met while the as-clause is collected raises [AttributeError].  Without
    a [POP_BLOCK] after the as-clause it raises [IndexError] when
    [_as_clause] is already set and [bytecode] is not. *)
Theorem CaptureBytecode_exit_missing_marker (o : CaptureBytecode.obj) (w : world)
    (fid : nat) (f : frame) (bc : Bytecode)
    (exc_type exc_value traceback : value) :
  fst (WithHack._get_context_frame (St (wh o) w)) = Ok fid →
  frames w !! fid = Some f →
  extract_code f (_CaptureBytecode__bc_start o) (Some (f_lasti f)) = Ok bc →
  let o1 := CaptureBytecode.Obj (WithHack.set_frame_cache fid (wh o))
              (_CaptureBytecode__bc_start o) (bytecode o) (_as_clause o) in
  (Forall (λ b, ¬ named "SETUP_WITH" b) (elems bc) →
   CaptureBytecode.__exit__ exc_type exc_value traceback (St o w)
     = (Raise (Exn IndexError "list index out of range"), St o1 w)) ∧
  (∀ pre a, elems bc = pre ++ [EInstr (Instr "SETUP_WITH" a)] →
     Forall (λ b, ¬ named "SETUP_WITH" b) pre →
     CaptureBytecode.__exit__ exc_type exc_value traceback (St o w)
       = (Raise (Exn UnboundLocalError "i"), St o1 w)) ∧
  (∀ pre a clause b rest,
     elems bc = pre ++ EInstr (Instr "SETUP_WITH" a) :: clause ++ b :: rest →
     Forall (λ b, ¬ named "SETUP_WITH" b) pre →
     Forall inside_as_clause clause → is_instr b = false →
     CaptureBytecode.__exit__ exc_type exc_value traceback (St o w)
       = (Raise (Exn AttributeError "name"), St o1 w)) ∧
  (∀ pre a clause s rest,
     elems bc = pre ++ EInstr (Instr "SETUP_WITH" a) :: clause ++ s :: rest →
     Forall (λ b, ¬ named "SETUP_WITH" b) pre →
     Forall inside_as_clause clause → ends_as_clause s →
     Forall (λ b, ¬ named "POP_BLOCK" b) rest →
     CaptureBytecode.__exit__ exc_type exc_value traceback (St o w)
       = (Raise (Exn IndexError "list index out of range"),
          St (set_as_clause (Some (set_elems (clause ++ [s]) bc)) o1) w)).
Proof.
  intros Hframe Hf Hbc o1. apply _get_context_frame_ok in Hframe.
  repeat split.
  - intros Hnone. unfold CaptureBytecode.__exit__. munfold. rewrite Hframe. simpl.
    rewrite Hf. simpl. rewrite Hbc. simpl. by rewrite strip_until_missing.
  - intros pre a Helems Hpre. unfold CaptureBytecode.__exit__. munfold.
    rewrite Hframe. simpl. rewrite Hf. simpl. rewrite Hbc. simpl.
    by rewrite Helems, strip_until_found.
  - intros pre a clause b rest Helems Hpre Hclause Hb.
    unfold CaptureBytecode.__exit__. munfold.
    rewrite Hframe. simpl. rewrite Hf. simpl. rewrite Hbc. simpl.
    rewrite Helems, strip_until_found by done. simpl. rewrite !drop_0.
    rewrite (match_nonempty (clause ++ _)) by (by destruct clause).
    by rewrite (collect_as_clause_label clause b _ 0 Hclause Hb).
  - intros pre a clause s rest Helems Hpre Hclause Hs Hrest.
    unfold CaptureBytecode.__exit__. munfold.
    rewrite Hframe. simpl. rewrite Hf. simpl. rewrite Hbc. simpl.
    rewrite Helems, strip_until_found by done. simpl. rewrite !drop_0.
    rewrite (match_nonempty (clause ++ _)) by (by destruct clause).
    rewrite (collect_as_clause_found clause s _ 0 Hclause Hs).
    cbn -[strip_back_until drop rev]. rewrite drop_past_item.
    by rewrite strip_back_until_missing.
Qed.

End capture_bytecode.

Lemma CaptureBytecode_exit_cuts_witness :
  CaptureBytecode.__exit__ (H := demo_host) VNone VNone VNone (St demo_capture demo_world)
    = (Ok false, St demo_captured demo_world).
Proof.
  apply (CaptureBytecode_exit_cuts (H := demo_host) demo_capture demo_world 0 demo_frame
           demo_extracted [EInstr (Instr "CALL_FUNCTION" (VInt 0))] []
           (elems demo_body) [] (EInstr (Instr "STORE_FAST" (VStr "f")))
           (VLabel 0) UNSET VNone VNone VNone).
  - reflexivity.
  - reflexivity.
  - by vm_compute.
  - reflexivity.
  - repeat constructor. by intros [a [=]].
  - constructor.
  - eexists. split; [reflexivity|]. by left.
  - constructor.
Defined.

Lemma CaptureBytecode_exit_missing_marker_witness :
  CaptureBytecode.__exit__ (H := demo_host) VNone VNone VNone (St demo_capture early_world)
    = (Raise (Exn IndexError "list index out of range"),
       St (CaptureBytecode.Obj (WithHack.Obj 10 true true (Some 0)) (Some 4%Z) None
                               (Some demo_as_clause)) early_world).
Proof.
  destruct (CaptureBytecode_exit_missing_marker (H := demo_host) demo_capture early_world
              0 early_frame
              (set_elems (take 6 (elems demo_extracted)) demo_bytecode)
              VNone VNone VNone)
    as (_ & _ & _ & Hpop); [reflexivity | reflexivity | by vm_compute |].
  apply (Hpop [EInstr (Instr "CALL_FUNCTION" (VInt 0))] (VLabel 0) []
              (EInstr (Instr "STORE_FAST" (VStr "f"))) (take 3 (elems demo_body))).
  - reflexivity.
  - repeat constructor. by intros [a [=]].
  - constructor.
  - eexists. split; [reflexivity|]. by left.
  - repeat constructor; by intros [a [=]].
Defined.

(** ** Function-mode rewriting, beyond single instructions *)

(** X6: Renaming twice is renaming once: the instructions of a sequence are
    shared with its shallow copies, and [_change_lookups] may run over the
    same instruction again. *)
Theorem change_lookup_idempotent (args : list string) (locals : dict) (i : instr) :
  change_lookup args locals (change_lookup args locals i)
    = change_lookup args locals i.
Proof.
  destruct i as [n a]. unfold change_lookup. cbn [name arg].
  repeat (first [ progress eval_opname_tests
                | progress cbn [name arg]
                | match goal with
                  | |- context [bool_decide (n ∈ ?l)] =>
                      destruct (bool_decide (n ∈ l)) eqn:?
                  | |- context [arg_in_names a args] =>
                      destruct (arg_in_names a args) eqn:?
                  | |- context [arg_in_dict a locals] =>
                      destruct (arg_in_dict a locals) eqn:?
                  end ]); try reflexivity; congruence.
Qed.




(** ** Trace functions: registration, order and removal *)

Lemma bind_ok {S A B} (m : M S A) (k : A → M S B) (s s' : S) (a : A) :
  m s = (Ok a, s') → (m ≫= k) s = k a s'.
Proof. intros Hm. unfold mbind, M_bind. by rewrite Hm. Qed.

Lemma bind_raise {S A B} (m : M S A) (k : A → M S B) (s s' : S) (e : exn) :
  m s = (Raise e, s') → (m ≫= k) s = (Raise e, s').
Proof. intros Hm. unfold mbind, M_bind. by rewrite Hm. Qed.

(** The first registration for a frame, when no frame is registered: the
    trace function of the frame is saved and replaced, and tracing is
    switched on, with the dummy function if there was none. *)
Lemma inject_trace_func_first (fid : nat) (f : frame) (func : injected) (w : world) :
  frames w !! fid = Some f →
  f_trace f ≠ Some F_invoke_trace_funcs →
  _orig_trace_funcs w = ∅ →
  inject_trace_func fid func w =
    (Ok tt,
     World (<[fid := set_f_trace (Some F_invoke_trace_funcs) f]> (frames w))
           (Some (default F_dummy_sys_trace (sys_trace w))) (sys_trace w)
           {[ fid := f_trace f ]}
           (<[fid := [func]]> (_injected_trace_funcs w)) (call_stack w)).
Proof.
  intros Hf Ht Horig. unfold inject_trace_func. munfold. rewrite Hf. simpl.
  rewrite decide_False by done. simpl. rewrite Horig, insert_empty.
  rewrite decide_True by apply map_size_singleton. rewrite _enable_tracing_ok. simpl.
  destruct (sys_trace w) eqn:Hs; simpl; rewrite lookup_insert_eq; simpl;
    by rewrite insert_insert_eq.
Qed.

(** A further registration for a frame only appends to its list. *)
Lemma inject_trace_func_next (fid : nat) (f : frame) (func : injected)
    (funcs : list injected) (w : world) :
  frames w !! fid = Some f →
  f_trace f = Some F_invoke_trace_funcs →
  _injected_trace_funcs w !! fid = Some funcs →
  inject_trace_func fid func w =
    (Ok tt, set_injected_trace_funcs
              (<[fid := funcs ++ [func]]> (_injected_trace_funcs w)) w).
Proof.
  intros Hf Ht Hfuncs. unfold inject_trace_func. munfold. rewrite Hf. simpl.
  rewrite decide_True by done. simpl. by rewrite Hfuncs.
Qed.

(** Running closures that update the locals: each one is applied to the
    locals the one before has left. *)
Lemma run_injected_updates (fid : nat) (f : frame) (updates : list dict) (w : world) :
  frames w !! fid = Some f →
  for_each (F_update_locals <$> updates) (λ func, call_injected func fid) w =
    (Ok tt,
     World (<[fid := set_f_locals (foldl dict_update (f_locals f) updates) f]> (frames w))
           (sys_trace w) (_orig_sys_trace w) (_orig_trace_funcs w)
           (_injected_trace_funcs w) (call_stack w)).
Proof.
  revert f w. induction updates as [|u updates IH]; intros f w Hf.
  - simpl. unfold ret, mret, M_ret. f_equal. destruct w; simpl in *. f_equal.
    symmetry. apply insert_id. rewrite Hf. by destruct f.
  - cbn [fmap list_fmap for_each].
    erewrite bind_ok; [|unfold call_injected; munfold; rewrite Hf; reflexivity].
    rewrite (IH (set_f_locals (dict_update (f_locals f) u) f))
      by (simpl; by rewrite lookup_insert_eq).
    simpl. by rewrite insert_insert_eq.
Qed.

(** [_invoke_trace_funcs] on a frame for which closures that update the
    locals are registered: they run in the order of the list, then the
    frame is removed from both tables, its trace function is restored, and
    tracing is switched off if this was the last registered frame and there
    was no system trace function before. *)
Lemma _invoke_trace_funcs_updates (fid : nat) (f : frame) (updates : list dict)
    (t : option trace_fn) (w : world) :
  frames w !! fid = Some f →
  _injected_trace_funcs w !! fid = Some (F_update_locals <$> updates) →
  _orig_trace_funcs w !! fid = Some t →
  _invoke_trace_funcs fid w =
    (Ok tt,
     World (<[fid := set_f_trace t (set_f_locals (foldl dict_update (f_locals f) updates) f)]>
              (frames w))
           (if decide (size (_orig_trace_funcs w) = 1)
            then match _orig_sys_trace w with None => None | Some _ => sys_trace w end
            else sys_trace w)
           (_orig_sys_trace w)
           (delete fid (_orig_trace_funcs w))
           (delete fid (_injected_trace_funcs w)) (call_stack w)).
Proof.
  intros Hf Hfuncs Horig. unfold _invoke_trace_funcs, try_finally. munfold.
  rewrite Hfuncs, (run_injected_updates fid f updates w Hf). simpl. rewrite Hfuncs. simpl.
  destruct (decide (size (_orig_trace_funcs w) = 1)); simpl.
  - rewrite _disable_tracing_ok. simpl.
    destruct (_orig_sys_trace w); simpl; rewrite Horig; simpl;
      rewrite lookup_insert_eq; simpl; by rewrite insert_insert_eq.
  - rewrite Horig. simpl. rewrite lookup_insert_eq. simpl. by rewrite insert_insert_eq.
Qed.

(** For a frame without registered functions the hook raises [KeyError],
    from its [finally] clause, and changes nothing. *)
Lemma _invoke_trace_funcs_unregistered (fid : nat) (w : world) :
  _injected_trace_funcs w !! fid = None →
  _invoke_trace_funcs fid w = (Raise (Exn KeyError "frame"), w).
Proof.
  intros Hnone. unfold _invoke_trace_funcs, try_finally. munfold. rewrite Hnone.
  simpl. by rewrite Hnone.
Qed.

(** X8: Two closures registered for a frame, in a world where no frame was
    registered, and the hook fired once: both have run, in the order they
    were registered; the trace function of the frame and the system trace
    function are what they were; both tables are without the frame.  A
    second firing finds nothing registered and raises [KeyError]. *)
Theorem inject_invoke_round_trip (fid : nat) (f : frame) (locals1 locals2 : dict)
    (w : world) :
  frames w !! fid = Some f →
  f_trace f ≠ Some F_invoke_trace_funcs →
  _orig_trace_funcs w = ∅ →
  ∃ w',
    (inject_trace_func fid (F_update_locals locals1);;
     inject_trace_func fid (F_update_locals locals2);;
     _invoke_trace_funcs fid) w = (Ok tt, w') ∧
    frames w' = <[fid := set_f_locals (dict_update (dict_update (f_locals f) locals1) locals2) f]>
                  (frames w) ∧
    sys_trace w' = sys_trace w ∧
    _orig_trace_funcs w' = ∅ ∧
    _injected_trace_funcs w' = delete fid (_injected_trace_funcs w) ∧
    call_stack w' = call_stack w ∧
    fst (_invoke_trace_funcs fid w') = Raise (Exn KeyError "frame").
Proof.
  intros Hf Ht Horig.
  set (f1 := set_f_trace (Some F_invoke_trace_funcs) f).
  eexists. split; [|split; [|split; [|split; [|split; [|split]]]]].
  - erewrite bind_ok; [|by apply inject_trace_func_first].
    erewrite bind_ok;
      [|apply (inject_trace_func_next fid f1 _ [F_update_locals locals1]);
        simpl; by rewrite ?lookup_insert_eq].
    apply (_invoke_trace_funcs_updates fid f1 [locals1; locals2] (f_trace f));
      simpl; by rewrite ?insert_insert_eq, ?lookup_insert_eq, ?lookup_singleton_eq.
  - simpl. rewrite insert_insert_eq. by destruct f.
  - simpl. rewrite map_size_singleton. simpl. by destruct (sys_trace w).
  - simpl. by rewrite delete_singleton_eq.
  - simpl. by rewrite insert_insert_eq, delete_insert_eq.
  - done.
  - rewrite _invoke_trace_funcs_unregistered; [done|]. simpl. apply lookup_delete_eq.
Qed.

Lemma inject_invoke_round_trip_witness :
  ∃ w',
    (inject_trace_func 0 (F_update_locals {[ "x" := VInt 1 ]});;
     inject_trace_func 0 (F_update_locals {[ "x" := VInt 2; "z" := VInt 3 ]});;
     _invoke_trace_funcs 0) demo_world = (Ok tt, w') ∧
    (f_locals <$> frames w' !! 0)
      = Some {[ "f" := VObj 10; "x" := VInt 2; "y" := VInt 8; "z" := VInt 3 ]} ∧
    (f_trace <$> frames w' !! 0) = Some None ∧
    sys_trace w' = None ∧
    fst (_invoke_trace_funcs 0 w') = Raise (Exn KeyError "frame").
Proof.
  destruct (inject_invoke_round_trip 0 demo_frame {[ "x" := VInt 1 ]}
              {[ "x" := VInt 2; "z" := VInt 3 ]} demo_world)
    as (w' & Hrun & Hframes & Hsys & _ & _ & _ & Hagain);
    [reflexivity | discriminate | reflexivity |].
  exists w'. split; [exact Hrun|]. rewrite Hframes, Hsys.
  split; [clear; by vm_compute|]. split; [clear; by vm_compute|].
  split; [reflexivity|]. exact Hagain.
Defined.

(** The first registration for a frame while other frames are registered:
    tracing is left as it is. *)
Lemma inject_trace_func_other (fid : nat) (f : frame) (func : injected) (w : world) :
  frames w !! fid = Some f →
  f_trace f ≠ Some F_invoke_trace_funcs →
  _orig_trace_funcs w !! fid = None →
  _orig_trace_funcs w ≠ ∅ →
  inject_trace_func fid func w =
    (Ok tt,
     World (<[fid := set_f_trace (Some F_invoke_trace_funcs) f]> (frames w))
           (sys_trace w) (_orig_sys_trace w)
           (<[fid := f_trace f]> (_orig_trace_funcs w))
           (<[fid := [func]]> (_injected_trace_funcs w)) (call_stack w)).
Proof.
  intros Hf Ht Hnone Hne. unfold inject_trace_func. munfold. rewrite Hf. simpl.
  rewrite decide_False by done. simpl.
  rewrite decide_False.
  - simpl. rewrite lookup_insert_eq. simpl. by rewrite insert_insert_eq.
  - rewrite map_size_insert_None by done.
    apply map_size_non_empty_iff in Hne. lia.
Qed.

(** X9: Closures registered for two frames, in a world where no frame was
    registered: when the hook of the first frame has fired, its closure has
    run and its trace function is restored, the second frame still has the
    hook, and the system trace function is still set (the dummy function
    if there was none); when the hook of the second frame has fired too,
    the system trace function is what it was at the start and no frame is
    registered. *)
Theorem tracing_stays_on_until_last_frame (a b : nat) (fa fb : frame)
    (la lb : dict) (w : world) :
  a ≠ b →
  frames w !! a = Some fa →
  frames w !! b = Some fb →
  f_trace fa ≠ Some F_invoke_trace_funcs →
  f_trace fb ≠ Some F_invoke_trace_funcs →
  _orig_trace_funcs w = ∅ →
  ∃ w1 w2,
    (inject_trace_func a (F_update_locals la);;
     inject_trace_func b (F_update_locals lb);;
     _invoke_trace_funcs a) w = (Ok tt, w1) ∧
    sys_trace w1 = Some (default F_dummy_sys_trace (sys_trace w)) ∧
    frames w1 !! a = Some (set_f_locals (dict_update (f_locals fa) la) fa) ∧
    frames w1 !! b = Some (set_f_trace (Some F_invoke_trace_funcs) fb) ∧
    _invoke_trace_funcs b w1 = (Ok tt, w2) ∧
    sys_trace w2 = sys_trace w ∧
    _orig_trace_funcs w2 = ∅ ∧
    frames w2 = <[b := set_f_locals (dict_update (f_locals fb) lb) fb]>
                  (<[a := set_f_locals (dict_update (f_locals fa) la) fa]> (frames w)).
Proof.
  intros Hab Hfa Hfb Hta Htb Horig.
  set (fa1 := set_f_trace (Some F_invoke_trace_funcs) fa).
  set (fb1 := set_f_trace (Some F_invoke_trace_funcs) fb).
  eexists _, _. split; [|split; [|split; [|split; [|split; [|split; [|split]]]]]].
  - erewrite bind_ok; [|by apply inject_trace_func_first].
    erewrite bind_ok;
      [|apply (inject_trace_func_other b fb); simpl;
        [by rewrite lookup_insert_ne|done|by rewrite lookup_singleton_ne
        |apply insert_non_empty]].
    apply (_invoke_trace_funcs_updates a fa1 [la] (f_trace fa)); simpl.
    + by rewrite lookup_insert_ne, lookup_insert_eq.
    + by rewrite lookup_insert_ne, lookup_insert_eq.
    + by rewrite lookup_insert_ne, lookup_singleton_eq.
  - simpl. rewrite decide_False; [done|].
    rewrite map_size_insert_None by (by rewrite lookup_singleton_ne).
    rewrite map_size_singleton. lia.
  - simpl. rewrite lookup_insert_eq. by destruct fa.
  - simpl. by rewrite lookup_insert_ne, lookup_insert_eq.
  - apply (_invoke_trace_funcs_updates b fb1 [lb] (f_trace fb)); simpl.
    + by rewrite lookup_insert_ne, lookup_insert_eq.
    + by rewrite lookup_delete_ne, lookup_insert_eq.
    + by rewrite lookup_delete_ne, lookup_insert_eq.
  - simpl. rewrite decide_True.
    2:{ rewrite delete_insert_ne, delete_singleton_eq, insert_empty by done.
        apply map_size_singleton. }
    rewrite decide_False.
    2:{ rewrite map_size_insert_None by (by rewrite lookup_singleton_ne).
        rewrite map_size_singleton. lia. }
    by destruct (sys_trace w).
  - simpl. rewrite delete_insert_ne, delete_singleton_eq, insert_empty by done.
    apply delete_singleton_eq.
  - simpl. apply map_eq. intros k.
    destruct (decide (k = b)) as [->|Hkb]; [rewrite !lookup_insert_eq; by destruct fb|].
    rewrite !(lookup_insert_ne _ b k) by done.
    destruct (decide (k = a)) as [->|Hka]; [rewrite !lookup_insert_eq; by destruct fa|].
    by rewrite !lookup_insert_ne by done.
Qed.

Lemma tracing_stays_on_until_last_frame_witness :
  ∃ w1 w2,
    (inject_trace_func 0 (F_update_locals {[ "x" := VInt 1 ]});;
     inject_trace_func 1 (F_update_locals {[ "z" := VInt 3 ]});;
     _invoke_trace_funcs 0) two_frame_world = (Ok tt, w1) ∧
    sys_trace w1 = Some F_dummy_sys_trace ∧
    (f_trace <$> frames w1 !! 0) = Some None ∧
    (f_trace <$> frames w1 !! 1) = Some (Some F_invoke_trace_funcs) ∧
    _invoke_trace_funcs 1 w1 = (Ok tt, w2) ∧
    sys_trace w2 = None ∧
    _orig_trace_funcs w2 = ∅.
Proof.
  destruct (tracing_stays_on_until_last_frame 0 1 demo_frame early_frame
              {[ "x" := VInt 1 ]} {[ "z" := VInt 3 ]} two_frame_world)
    as (w1 & w2 & Hrun & Hsys & Ha & Hb & Hrun2 & Hsys2 & Horig & _);
    [done | reflexivity | reflexivity | discriminate | discriminate | reflexivity |].
  exists w1, w2. rewrite Ha, Hb.
  split; [exact Hrun|]. split; [exact Hsys|]. split; [reflexivity|].
  split; [reflexivity|]. split; [exact Hrun2|]. split; [exact Hsys2|]. exact Horig.
Defined.

(** ** Forwarding captured locals as positional arguments *)

(** [CaptureLocals.__exit__] once the bytecode is captured, for any
    [dest_type]. *)
Lemma CaptureLocals_exit_fold `{Host} {D} `{DestType D}
    (cb0 cb1 : CaptureBytecode.obj) (w w1 : world)
    (exc_type exc_value traceback : value) (retcode : bool)
    (bc : Bytecode) (fid : nat) (f : frame) (l0 : option D) :
  CaptureBytecode.__exit__ exc_type exc_value traceback (St cb0 w)
    = (Ok retcode, St cb1 w1) →
  bytecode cb1 = Some bc →
  WithHack._WithHack__frame (wh cb1) = Some fid →
  frames w1 !! fid = Some f →
  simple_block f (elems bc) →
  CaptureLocals.__exit__ exc_type exc_value traceback (St (CaptureLocals.Obj cb0 l0) w)
    = (Ok retcode,
       St (CaptureLocals.Obj cb1
             (Some (foldl (λ d x, dest_setitem x (default VNone (f_locals f !! x)) d)
                          dest_type (stored_names (elems bc))))) w1).
Proof.
  intros Hexit Hbc Hcache Hf Hblock.
  unfold CaptureLocals.__exit__. munfold. rewrite Hexit. simpl.
  rewrite (_get_context_frame_cached _ _ fid Hcache). simpl. rewrite Hbc.
  rewrite (capture_loop (elems bc) fid f w1 _ dest_type Hf Hblock); [|done].
  destruct cb1; simpl in *. by subst.
Qed.

(** X11: When the captured body of the block is a sequence of simple
    assignments, [xargs.__exit__] calls the wrapped callable, once, with the
    positional arguments of the constructor followed by the values of the
    names the block stores, one for each name, in the order in which the
    names are first assigned; the keyword arguments of the constructor are
    passed as they are.  The value returned is replayed through the
    as-clause. *)
Theorem xargs_appends_captured_values `{Host} (o : xargs.obj) (w w1 : world)
    (cb1 : CaptureBytecode.obj) (bc : Bytecode) (fid : nat) (f : frame)
    (exc_type exc_value traceback : value) (retcode : bool) :
  CaptureBytecode.__exit__ exc_type exc_value traceback
      (St (CaptureLocals.cb (xargs.cl o)) w) = (Ok retcode, St cb1 w1) →
  bytecode cb1 = Some bc →
  WithHack._WithHack__frame (wh cb1) = Some fid →
  frames w1 !! fid = Some f →
  simple_block f (elems bc) →
  ∃ (values : list value) (locals : OrderedDict),
    xargs.__exit__ exc_type exc_value traceback (St o w) =
      (retval ← in_world (py_call (xargs._xargs__func o)
                                  (xargs._xargs__args o ++ values)
                                  (xargs._xargs__kwds o));
       super (super (CaptureBytecode._run_as_clause retval));;
       ret retcode)
        (St (xargs.Obj (CaptureLocals.Obj cb1 (Some locals)) (xargs._xargs__func o)
                       (xargs._xargs__args o) (xargs._xargs__kwds o)) w1) ∧
    Forall2 (λ x v, f_locals f !! x = Some v)
            (first_assigned (stored_names (elems bc))) values.
Proof.
  intros Hexit Hbc Hcache Hf Hblock.
  set (val := λ x, default VNone (f_locals f !! x)).
  exists (val <$> first_assigned (stored_names (elems bc))),
         (items val (first_assigned (stored_names (elems bc)))).
  split.
  - unfold xargs.__exit__. munfold. destruct o as [[cb0 l0] func args kwds]. simpl in *.
    rewrite (CaptureLocals_exit_fold cb0 cb1 w w1 _ _ _ retcode bc fid f l0)
      by done.
    simpl. rewrite (foldl_od_setitem val). simpl.
    unfold items. by rewrite <- list_fmap_compose.
  - apply Forall2_fmap_r, Forall_Forall2_diag, Forall_forall. intros x Hx.
    assert (x ∈ stored_names (elems bc)) as Hin.
    { clear -Hx. revert x Hx. induction (stored_names (elems bc)) as [|z l IH];
        intros y Hy; [by apply not_elem_of_nil in Hy|].
      simpl in Hy. apply elem_of_cons in Hy as [->|Hy]; [left|].
      apply list_elem_of_filter in Hy as [_ Hy]. right. by apply IH. }
    unfold val. destruct (stored_names_bound f _ x Hblock Hin) as [v Hv].
    simpl. by rewrite Hv.
Qed.

Lemma xargs_appends_captured_values_witness :
  xargs.__exit__ (H := demo_host) VNone VNone VNone (St demo_xargs demo_world) =
    (retval ← in_world (py_call (VObj 20) [VInt 1; VInt 7; VInt 8] {[ "b" := VInt 2 ]});
     super (super (CaptureBytecode._run_as_clause retval));;
     ret false)
      (St (xargs.Obj (CaptureLocals.Obj demo_captured
                        (Some [("x", VInt 7); ("y", VInt 8)]))
                     (VObj 20) [VInt 1] {[ "b" := VInt 2 ]}) demo_world).
Proof.
  destruct (xargs_appends_captured_values (H := demo_host) demo_xargs demo_world
              demo_world demo_captured demo_body 0 demo_frame VNone VNone VNone false)
    as (values & locals & Hexit & Hvalues);
    [by vm_compute | reflexivity | reflexivity | reflexivity | apply demo_body_simple |].
  clear Hvalues. by vm_compute.
Defined.

(** ** Capturing locals from a block that is not straight-line *)

Lemma for_each_app {S A} (l1 l2 : list A) (body : A → M S unit) (s : S) :
  for_each (l1 ++ l2) body s = (for_each l1 body;; for_each l2 body) s.
Proof.
  revert s. induction l1 as [|x l1 IH]; intros s; simpl.
  - unfold mbind, M_bind, ret, mret, M_ret. by destruct (for_each l2 body s).
  - unfold mbind, M_bind. destruct (body x s) as [[[]|e] s']; [|done].
    apply IH.
Qed.

Lemma capture_store_failure `{Host} {D} `{DestType D} (fid : nat) (f : frame)
    (w : world) (o : CaptureLocals.obj D) (b : elem) (c : exc_class) :
  frames w !! fid = Some f → capture_failure f b = Some c →
  ∃ msg, CaptureLocals.capture_store fid b (St o w) = (Raise (Exn c msg), St o w).
Proof.
  intros Hf Hfail. unfold CaptureLocals.capture_store, capture_failure in *.
  destruct b as [i| |]; simplify_eq; [|by eexists..].
  case_bool_decide; [|done]. munfold. rewrite Hf. simpl.
  destruct (name_of (arg i)) as [x|]; simpl in *; [|simplify_eq; by eexists].
  destruct (f_locals f !! x); simpl in *; simplify_eq. by eexists.
Qed.

(** X12: When the captured body of the block holds a label or line marker, as
    the body of a block with a branch or a loop does, or a store of a name
    that the frame no longer binds when the block is left, and the code
    before it is straight-line, [CaptureLocals.__exit__] raises
    [AttributeError] in the first case and [KeyError] in the second.  The
    bytecode is captured by then, and [locals] holds what the stores before
    that element have given. *)
Theorem CaptureLocals_exit_stops_at `{Host} {D} `{DestType D}
    (cb0 cb1 : CaptureBytecode.obj) (w w1 : world)
    (exc_type exc_value traceback : value) (retcode : bool)
    (bc : Bytecode) (fid : nat) (f : frame) (l0 : option D)
    (pre post : list elem) (b : elem) (c : exc_class) :
  CaptureBytecode.__exit__ exc_type exc_value traceback (St cb0 w)
    = (Ok retcode, St cb1 w1) →
  bytecode cb1 = Some bc →
  WithHack._WithHack__frame (wh cb1) = Some fid →
  frames w1 !! fid = Some f →
  elems bc = pre ++ b :: post →
  simple_block f pre →
  capture_failure f b = Some c →
  ∃ msg,
    CaptureLocals.__exit__ exc_type exc_value traceback (St (CaptureLocals.Obj cb0 l0) w)
      = (Raise (Exn c msg),
         St (CaptureLocals.Obj cb1
               (Some (foldl (λ d x, dest_setitem x (default VNone (f_locals f !! x)) d)
                            dest_type (stored_names pre)))) w1).
Proof.
  intros Hexit Hbc Hcache Hf Helems Hblock Hfail.
  unfold CaptureLocals.__exit__. munfold. rewrite Hexit. simpl.
  rewrite (_get_context_frame_cached _ _ fid Hcache). simpl. rewrite Hbc, Helems.
  rewrite for_each_app. unfold mbind at 1, M_bind at 1.
  rewrite (capture_loop pre fid f w1 _ dest_type Hf Hblock); [|done].
  cbn [for_each]. unfold mbind, M_bind.
  match goal with |- context [CaptureLocals.capture_store fid b (St ?o w1)] =>
    destruct (capture_store_failure fid f w1 o b c Hf Hfail) as [msg ->] end.
  exists msg. simpl. destruct cb1; simpl in *. by subst.
Qed.

Lemma CaptureLocals_exit_stops_at_witness :
  ∃ msg,
    CaptureLocals.__exit__ (H0 := demo_host) VNone VNone VNone
        (St (CaptureLocals.Obj demo_capture (@None dict)) entry_world)
      = (Raise (Exn KeyError msg),
         St (CaptureLocals.Obj demo_captured (Some {[ "x" := VInt 7 ]})) entry_world).
Proof.
  destruct (CaptureLocals_exit_stops_at (H := demo_host) (D := dict)
              demo_capture demo_captured entry_world entry_world VNone VNone VNone false
              demo_body 0 (set_f_locals {[ "x" := VInt 7 ]} demo_frame) None
              [ EInstr (Instr "LOAD_CONST" (VInt 7)); EInstr (Instr "STORE_FAST" (VStr "x"));
                EInstr (Instr "LOAD_CONST" (VInt 8)) ] []
              (EInstr (Instr "STORE_FAST" (VStr "y"))) KeyError)
    as [msg Hexit];
    [by vm_compute | reflexivity | reflexivity | reflexivity | reflexivity | | reflexivity |].
  - repeat (apply Forall_cons; split;
      [eexists; split; [reflexivity|]; simpl; intros Hn;
       first [ by (apply (bool_decide_pack _) in Hn; vm_compute in Hn)
             | eexists; split; [reflexivity|]; by eexists ] |]).
    apply Forall_nil_2.
  - exists msg. rewrite Hexit. clear. by vm_compute.
Defined.

(** ** A trace function that raises *)

(** X10: [_invoke_trace_funcs] on a frame for which [_exit_context] is
    registered after closures that update the locals: the closures
    registered before it have run, those registered after it have not, and
    [_ExitContext] escapes; all the same the frame is removed from both
    tables, its trace function is restored, and tracing is switched off if
    this was the last registered frame and there was no system trace
    function before. *)
Theorem _invoke_trace_funcs_cleans_up (fid : nat) (f : frame) (updates : list dict)
    (later : list injected) (t : option trace_fn) (w : world) :
  frames w !! fid = Some f →
  _injected_trace_funcs w !! fid
    = Some ((F_update_locals <$> updates) ++ F_exit_context :: later) →
  _orig_trace_funcs w !! fid = Some t →
  _invoke_trace_funcs fid w =
    (Raise (Exn _ExitContext ""),
     World (<[fid := set_f_trace t (set_f_locals (foldl dict_update (f_locals f) updates) f)]>
              (frames w))
           (if decide (size (_orig_trace_funcs w) = 1)
            then match _orig_sys_trace w with None => None | Some _ => sys_trace w end
            else sys_trace w)
           (_orig_sys_trace w)
           (delete fid (_orig_trace_funcs w))
           (delete fid (_injected_trace_funcs w)) (call_stack w)).
Proof.
  intros Hf Hfuncs Horig. unfold _invoke_trace_funcs, try_finally. munfold.
  rewrite Hfuncs, for_each_app. unfold mbind at 1, M_bind at 1.
  rewrite (run_injected_updates fid f updates w Hf). simpl. rewrite Hfuncs. simpl.
  destruct (decide (size (_orig_trace_funcs w) = 1)); simpl.
  - rewrite _disable_tracing_ok. simpl.
    destruct (_orig_sys_trace w); simpl; rewrite Horig; simpl;
      rewrite lookup_insert_eq; simpl; by rewrite insert_insert_eq.
  - rewrite Horig. simpl. rewrite lookup_insert_eq. simpl. by rewrite insert_insert_eq.
Qed.

Lemma _invoke_trace_funcs_cleans_up_witness :
  _invoke_trace_funcs 0
      (World {[ 0 := set_f_trace (Some F_invoke_trace_funcs) demo_frame ]}
             (Some F_dummy_sys_trace) None {[ 0 := None ]}
             {[ 0 := [F_update_locals {[ "x" := VInt 1 ]}; F_exit_context;
                      F_update_locals {[ "x" := VInt 2 ]}] ]} [0])
    = (Raise (Exn _ExitContext ""),
       World {[ 0 := set_f_locals (<[ "x" := VInt 1 ]> (f_locals demo_frame)) demo_frame ]}
             None None ∅ ∅ [0]).
Proof.
  rewrite (_invoke_trace_funcs_cleans_up 0
             (set_f_trace (Some F_invoke_trace_funcs) demo_frame)
             [ {[ "x" := VInt 1 ]} ] [F_update_locals {[ "x" := VInt 2 ]}] None);
    [by vm_compute | reflexivity | reflexivity | reflexivity].
Defined.

(** ** Modified locals, from entry to exit *)



(** ** Entering a capturing block *)

(** X14: [CaptureBytecode.__enter__] returns the object itself, having stored
    on it the context frame and the offset of the instruction that frame
    last executed; the captured body and as-clause are as before.  It
    registers [_exit_context] as the last trace function of the context
    frame when [dont_execute] is set and [must_execute] is not, as for
    [CaptureBytecode()], and otherwise leaves the frames and the tracing as
    they are, as for [CaptureLocals()]. *)
Theorem CaptureBytecode_enter_records_offset (o : CaptureBytecode.obj) (w : world)
    (fid : nat) (f : frame) :
  fst (WithHack._get_context_frame (St (wh o) w)) = Ok fid →
  frames w !! fid = Some f →
  tracing_consistent w →
  ∃ w',
    CaptureBytecode.__enter__ (St o w) =
      (Ok (VObj (WithHack.self_id (wh o))),
       St (Obj (WithHack.set_frame_cache fid (wh o)) (Some (f_lasti f))
               (bytecode o) (_as_clause o)) w') ∧
    if WithHack.dont_execute (wh o) && negb (WithHack.must_execute (wh o))
    then ∃ funcs, _injected_trace_funcs w' !! fid = Some (funcs ++ [F_exit_context]) ∧
                  (f_trace <$> frames w' !! fid) = Some (Some F_invoke_trace_funcs) ∧
                  sys_trace w' ≠ None
    else w' = w.
Proof.
  intros Hframe Hf Hcons. apply _get_context_frame_ok in Hframe.
  destruct o as [[id de me fr] start0 bc0 as0]. simpl in *.
  unfold CaptureBytecode.__enter__, WithHack.__enter__. munfold.
  rewrite Hframe. simpl. rewrite Hf. simpl.
  destruct (de && negb me) eqn:Hskip; simpl.
  - destruct (inject_trace_func_ok fid f F_exit_context w Hf Hcons)
      as (w' & funcs & Hinj & Hfuncs & Hfr & _ & Hsys & _ & _).
    exists w'. rewrite Hinj. simpl. split; [done|]. exists funcs.
    split; [done|]. split; [by rewrite Hfr, lookup_insert_eq|done].
  - exists w. by destruct w.
Qed.

Lemma CaptureBytecode_enter_records_offset_witness :
  (∃ w', CaptureBytecode.__enter__ (St (CaptureBytecode.__init__ 10) demo_world) =
           (Ok (VObj 10),
            St (Obj (WithHack.Obj 10 true false (Some 0)) (Some 20%Z) None None) w') ∧
         ∃ funcs, _injected_trace_funcs w' !! 0 = Some (funcs ++ [F_exit_context])) ∧
  CaptureBytecode.__enter__ (St (CaptureLocals.cb (CaptureLocals.__init__ (D := dict) 10))
                                demo_world) =
    (Ok (VObj 10),
     St (Obj (WithHack.Obj 10 true true (Some 0)) (Some 20%Z) None None) demo_world).
Proof.
  split.
  - destruct (CaptureBytecode_enter_records_offset (CaptureBytecode.__init__ 10)
                demo_world 0 demo_frame eq_refl eq_refl demo_world_consistent)
      as (w' & Henter & funcs & Hfuncs & _).
    exists w'. split; [exact Henter|]. by exists funcs.
  - destruct (CaptureBytecode_enter_records_offset
                (CaptureLocals.cb (CaptureLocals.__init__ (D := dict) 10))
                demo_world 0 demo_frame eq_refl eq_refl demo_world_consistent)
      as (w' & Henter & Hw).
    simpl in Hw. by subst w'.
Defined.

(** ** Replaying an as-clause that is not a simple local store *)






(** ** The function made from a block *)





(** ** The context frame, found and kept *)

Lemma find_context_frame_first (id : nat) (frames : gmap nat frame)
    (pre post : list nat) (fid : nat) (f : frame) :
  Forall (binds_self frames id) pre →
  frames !! fid = Some f →
  f_locals f !! "self" ≠ Some (VObj id) →
  ∀ head rest, head :: rest = pre ++ fid :: post →
    WithHack.find_context_frame id frames head rest = Ok fid.
Proof.
  intros Hpre Hf Hself. induction Hpre as [|i pre (g & Hg & Hgs) _ IH];
    intros head rest Heq; simpl in Heq; simplify_eq.
  - destruct post; simpl; rewrite Hf; by rewrite decide_False.
  - destruct pre as [|j pre]; simpl in *; rewrite Hg;
      (rewrite decide_True by done); by apply IH.
Qed.

Lemma find_context_frame_none (id : nat) (frames : gmap nat frame) :
  ∀ head rest, Forall (binds_self frames id) (head :: rest) →
    WithHack.find_context_frame id frames head rest = Raise (Exn AttributeError "f_locals").
Proof.
  intros head rest. revert head.
  induction rest as [|j rest IH]; intros head Hall;
    apply Forall_cons in Hall as [(g & Hg & Hgs) Hrest]; simpl; rewrite Hg;
    (rewrite decide_True by done); [done|by apply IH].
Qed.

(** X16: The first call of [_get_context_frame] on an object returns the first
    frame, from the caller of the calling method on, that does not bind
    the name "self" to this object, and stores it on the object.  Every
    later call returns this frame, whatever the call stack and the frames
    are by then. *)
Theorem _get_context_frame_first_foreign (o : WithHack.obj) (w : world)
    (pre post : list nat) (fid : nat) (f : frame) :
  WithHack._WithHack__frame o = None →
  call_stack w = pre ++ fid :: post →
  Forall (binds_self (frames w) (WithHack.self_id o)) pre →
  frames w !! fid = Some f →
  f_locals f !! "self" ≠ Some (VObj (WithHack.self_id o)) →
  WithHack._get_context_frame (St o w) = (Ok fid, St (WithHack.set_frame_cache fid o) w) ∧
  ∀ w', WithHack._get_context_frame (St (WithHack.set_frame_cache fid o) w')
          = (Ok fid, St (WithHack.set_frame_cache fid o) w').
Proof.
  intros Hcache Hstack Hpre Hf Hself. split.
  - unfold WithHack._get_context_frame. munfold. rewrite Hcache. simpl.
    destruct (call_stack w) as [|head rest] eqn:Hcs; [by destruct pre|].
    simpl. by rewrite (find_context_frame_first _ _ pre post fid f).
  - intros w'. by apply _get_context_frame_cached.
Qed.

Lemma _get_context_frame_first_foreign_witness :
  WithHack._get_context_frame (St (WithHack.Obj 10 true false None) nested_world)
    = (Ok 0, St (WithHack.Obj 10 true false (Some 0)) nested_world) ∧
  ∀ w', WithHack._get_context_frame (St (WithHack.Obj 10 true false (Some 0)) w')
          = (Ok 0, St (WithHack.Obj 10 true false (Some 0)) w').
Proof.
  apply (_get_context_frame_first_foreign (WithHack.Obj 10 true false None)
           nested_world [2; 1] [] 0 demo_frame).
  - reflexivity.
  - reflexivity.
  - repeat apply Forall_cons_2; [by exists method_frame..|apply Forall_nil_2].
  - reflexivity.
  - by vm_compute.
Defined.

(** X17: When every frame from the caller of the calling method on binds "self"
    to the object, [_get_context_frame] runs off the end of the stack and
    raises [AttributeError]; when there is no such frame at all it raises
    [ValueError].  Nothing is stored on the object. *)
Theorem _get_context_frame_no_foreign (o : WithHack.obj) (w : world) :
  WithHack._WithHack__frame o = None →
  Forall (binds_self (frames w) (WithHack.self_id o)) (call_stack w) →
  WithHack._get_context_frame (St o w) =
    (Raise (Exn (if decide (call_stack w = []) then ValueError else AttributeError)
                (if decide (call_stack w = []) then "call stack is not deep enough"
                 else "f_locals")),
     St o w).
Proof.
  intros Hcache Hall. unfold WithHack._get_context_frame. munfold. rewrite Hcache.
  simpl. destruct (call_stack w) as [|head rest]; [done|].
  simpl. by rewrite find_context_frame_none.
Qed.

Lemma _get_context_frame_no_foreign_witness :
  fst (WithHack._get_context_frame
         (St (WithHack.Obj 10 true false None)
             (World (frames nested_world) None None ∅ ∅ [2; 1])))
    = Raise (Exn AttributeError "f_locals").
Proof.
  rewrite (_get_context_frame_no_foreign (WithHack.Obj 10 true false None)
             (World (frames nested_world) None None ∅ ∅ [2; 1])).
  - reflexivity.
  - reflexivity.
  - repeat apply Forall_cons_2; [by exists method_frame..|apply Forall_nil_2].
Defined.

(** ** Target-redirect rewriting of a sequence *)

Section rewrite.

Variable replace : nat → elem → nat → result (option (list elem)).

Lemma splice_collected (frame : nat) (rest : list elem) :
  ∀ (lbl i offset : nat) (before : list elem) (to_replace : list (nat * list elem)),
    namespace.collect_replacements replace lbl rest frame i = Ok to_replace →
    length before = i + offset →
    ∃ out, expand replace lbl rest frame = Ok out ∧
           namespace.splice_replacements (before ++ rest) to_replace offset
             = before ++ out.
Proof.
  induction rest as [|b rest IH]; intros lbl i offset before to_replace Hc Hlen;
    simpl in *.
  - injection Hc as <-. exists []. by split.
  - destruct (replace lbl b frame) as [repl|e]; [|done].
    destruct (namespace.collect_replacements replace (lbl + 3) rest frame (S i))
      as [tr|e] eqn:Htr; [|done].
    injection Hc as <-.
    destruct repl as [[|r repl]|].
    + destruct (IH (lbl + 3) (S i) offset (before ++ [b]) tr Htr) as (out & Hout & Hs).
      { rewrite length_app. simpl. lia. }
      rewrite Hout. exists (b :: out). split; [done|].
      rewrite <- !app_assoc in Hs. exact Hs.
    + destruct (IH (lbl + 3) (S i) (offset + (length (r :: repl) - 1))
                   (before ++ r :: repl) tr Htr) as (out & Hout & Hs).
      { rewrite length_app. simpl. lia. }
      rewrite Hout. exists ((r :: repl) ++ out). split; [reflexivity|].
      cbn [namespace.splice_replacements].
      rewrite take_app_length' by done.
      replace (i + offset + 1) with (length before + 1) by lia.
      rewrite drop_past_item. rewrite <- !app_assoc in Hs. exact Hs.
    + destruct (IH (lbl + 3) (S i) offset (before ++ [b]) tr Htr) as (out & Hout & Hs).
      { rewrite length_app. simpl. lia. }
      rewrite Hout. exists (b :: out). split; [done|].
      rewrite <- !app_assoc in Hs. exact Hs.
Qed.

Lemma collect_raises (frame : nat) (rest : list elem) :
  ∀ (lbl i : nat) (e : exn),
    namespace.collect_replacements replace lbl rest frame i = Raise e →
    expand replace lbl rest frame = Raise e.
Proof.
  induction rest as [|b rest IH]; intros lbl i e Hc; simpl in *; [done|].
  destruct (replace lbl b frame) as [repl|e']; [|congruence].
  destruct (namespace.collect_replacements replace (lbl + 3) rest frame (S i))
    as [tr|e'] eqn:Htr; [done|].
  injection Hc as ->. by rewrite (IH _ _ _ Htr).
Qed.

(** X18: The two loops of [namespace.__exit__], which first collect the
    replacements with their indices and then splice them in at indices
    shifted by the growth so far, replace every element of the code by its
    replacement, in place and in order, and keep every other element; they
    fail exactly when a call of [_replace_opcode] fails, with its
    exception. *)
Theorem rewrite_funcode_expands (lbl : nat) (bytecode : list elem) (frame : nat) :
  namespace.rewrite_funcode replace lbl bytecode frame =
    expand replace lbl
           (bytecode ++ [namespace.I "LOAD_CONST" VNone; namespace.I "RETURN_VALUE" UNSET])
           frame.
Proof.
  unfold namespace.rewrite_funcode.
  destruct (namespace.collect_replacements _ _ _ _ _) as [tr|e] eqn:Hc.
  - destruct (splice_collected frame _ lbl 0 0 [] tr Hc eq_refl) as (out & Hout & Hs).
    rewrite Hout. f_equal. exact Hs.
  - by rewrite (collect_raises frame _ lbl 0 e Hc).
Qed.

End rewrite.

(** ** The rewritten accesses, executed *)

Import Ceval.

Lemma run_S `{Host} (frames : gmap nat frame) (code : list elem) (fuel : nat)
    (m : machine) :
  run frames code (S fuel) m =
    match step frames code m with
    | Running m' => run frames code fuel m'
    | o => o
    end.
Proof. reflexivity. Qed.



(** One step of symbolic execution. *)
Ltac go := cbn -[run pop_to_level label_index issubclass load_name].
Ltac exec := rewrite run_S; go.


Section guarded_load.

Context `{Host}.




(** X21: The code by which [namespace] replaces a store of the variable [x] as
    a local or name-indexed variable, run with the value to store on top of
    the stack and the target in the slot "_[namespace]": it sets the
    attribute [x] of the target to that value, once, and pops the value.
    The code for a delete deletes the attribute [x] of the target and
    leaves the stack as it is.  Stores and deletes of global variables and
    of closure cells are not replaced. *)
Theorem namespace_store_delete_redirected (frames : gmap nat frame) (lbl fid : nat)
    (x : string) (target v : value) (st : list value) (fast : dict) :
  fast !! "_[namespace]" = Some target →
  (∀ n, n ∈ ["STORE_FAST"; "STORE_NAME"] →
     ∃ code,
       namespace._replace_opcode lbl (EInstr (Instr n (VStr x))) fid = Ok (Some code) ∧
       observed (run frames code 3 (start (v :: st) fast)) =
         Some (Ok st, [SetAttr target (VStr x) v])) ∧
  (∀ n, n ∈ ["DELETE_FAST"; "DELETE_NAME"] →
     ∃ code,
       namespace._replace_opcode lbl (EInstr (Instr n (VStr x))) fid = Ok (Some code) ∧
       observed (run frames code 3 (start st fast)) =
         Some (Ok st, [DelAttr target (VStr x)])) ∧
  (∀ n, n ∈ ["STORE_GLOBAL"; "STORE_DEREF"; "DELETE_GLOBAL"; "DELETE_DEREF"] →
     namespace._replace_opcode lbl (EInstr (Instr n (VStr x))) fid = Ok None).
Proof.
  intros Hfast. split; [|split]; intros n Hn;
    unfold namespace._replace_opcode, namespace._replace_opcode_kw; cbn [name];
    repeat (apply elem_of_cons in Hn as [->|Hn]);
    try (by apply not_elem_of_nil in Hn);
    eval_opname_tests; try reflexivity;
    (eexists; split; [reflexivity|]);
    unfold namespace.I, namespace._store, namespace._delete, start; cbn [app arg];
    exec; rewrite Hfast; go; exec; exec; reflexivity.
Qed.

(** X22: The same for [keyspace]: a store sets the item with key [x] of the
    target, a delete deletes it. *)
Theorem keyspace_store_delete_redirected (frames : gmap nat frame) (lbl fid : nat)
    (x : string) (target v : value) (st : list value) (fast : dict) :
  fast !! "_[namespace]" = Some target →
  (∀ n, n ∈ ["STORE_FAST"; "STORE_NAME"] →
     ∃ code,
       keyspace._replace_opcode lbl (EInstr (Instr n (VStr x))) fid = Ok (Some code) ∧
       observed (run frames code 4 (start (v :: st) fast)) =
         Some (Ok st, [SetItem target (VStr x) v])) ∧
  (∀ n, n ∈ ["DELETE_FAST"; "DELETE_NAME"] →
     ∃ code,
       keyspace._replace_opcode lbl (EInstr (Instr n (VStr x))) fid = Ok (Some code) ∧
       observed (run frames code 4 (start st fast)) =
         Some (Ok st, [DelItem target (VStr x)])) ∧
  (∀ n, n ∈ ["STORE_GLOBAL"; "STORE_DEREF"; "DELETE_GLOBAL"; "DELETE_DEREF"] →
     keyspace._replace_opcode lbl (EInstr (Instr n (VStr x))) fid = Ok None).
Proof.
  intros Hfast. split; [|split]; intros n Hn;
    unfold keyspace._replace_opcode, namespace._replace_opcode_kw; cbn [name];
    repeat (apply elem_of_cons in Hn as [->|Hn]);
    try (by apply not_elem_of_nil in Hn);
    eval_opname_tests; try reflexivity;
    (eexists; split; [reflexivity|]);
    unfold namespace.I, start; cbn [app arg];
    exec; rewrite Hfast; go; exec; exec; exec; reflexivity.
Qed.

End guarded_load.



Lemma namespace_store_delete_redirected_witness :
  (∃ code,
     namespace._replace_opcode 0 (EInstr (Instr "STORE_NAME" (VStr "x"))) 0 = Ok (Some code) ∧
     observed (run {[ 0 := demo_frame ]} code 3
                   (start [VInt 7; VInt 5] {[ "_[namespace]" := VObj 3 ]})) =
       Some (Ok [VInt 5], [SetAttr (VObj 3) (VStr "x") (VInt 7)])) ∧
  (∃ code,
     namespace._replace_opcode 0 (EInstr (Instr "DELETE_FAST" (VStr "x"))) 0 = Ok (Some code) ∧
     observed (run {[ 0 := demo_frame ]} code 3
                   (start [VInt 5] {[ "_[namespace]" := VObj 3 ]})) =
       Some (Ok [VInt 5], [DelAttr (VObj 3) (VStr "x")])) ∧
  namespace._replace_opcode 0 (EInstr (Instr "STORE_GLOBAL" (VStr "x"))) 0 = Ok None.
Proof.
  destruct (namespace_store_delete_redirected {[ 0 := demo_frame ]} 0 0 "x" (VObj 3)
              (VInt 7) [VInt 5] {[ "_[namespace]" := VObj 3 ]})
    as (Hstore & Hdelete & Hglobal); [reflexivity|].
  split; [apply Hstore; set_solver|]. split; [apply Hdelete; set_solver|].
  apply Hglobal; set_solver.
Defined.

Lemma keyspace_store_delete_redirected_witness :
  (∃ code,
     keyspace._replace_opcode 0 (EInstr (Instr "STORE_FAST" (VStr "x"))) 0 = Ok (Some code) ∧
     observed (run {[ 0 := demo_frame ]} code 4
                   (start [VInt 7] {[ "_[namespace]" := VObj 3 ]})) =
       Some (Ok [], [SetItem (VObj 3) (VStr "x") (VInt 7)])) ∧
  (∃ code,
     keyspace._replace_opcode 0 (EInstr (Instr "DELETE_NAME" (VStr "x"))) 0 = Ok (Some code) ∧
     observed (run {[ 0 := demo_frame ]} code 4
                   (start [] {[ "_[namespace]" := VObj 3 ]})) =
       Some (Ok [], [DelItem (VObj 3) (VStr "x")])) ∧
  keyspace._replace_opcode 0 (EInstr (Instr "DELETE_GLOBAL" (VStr "x"))) 0 = Ok None.
Proof.
  destruct (keyspace_store_delete_redirected {[ 0 := demo_frame ]} 0 0 "x" (VObj 3)
              (VInt 7) [] {[ "_[namespace]" := VObj 3 ]})
    as (Hstore & Hdelete & Hglobal); [reflexivity|].
  split; [apply Hstore; set_solver|]. split; [apply Hdelete; set_solver|].
  apply Hglobal; set_solver.
Defined.
